(** * Outer-loop multi-policy MO Q-learning: the coordinator [MPMOQLearning]

    A shallow embedding of
    [morl_baselines/multi_policy/multi_policy_moqlearning/mp_mo_q_learning.py].

    Conventions of the embedding.
    - Python floats are modelled as exact integers ([Z]): the properties
      below depend on the order of the scalars and on exact sums of products
      only, never on rounding.  NaN is outside the model.
    - A numpy 1-D array is a [list Z]; a 2-D array carries its shape.
    - A Python exception is a value of [exception]; a computation that can
      raise returns a [result].
    - Objects that the code shares and mutates (sub-policies, their Q-table
      dictionaries) live in a store and are referred to by location.
    - Code the coordinator calls but does not define (the sub-policy, the
      linear-support service, the evaluation and logging helpers) is a
      parameter, collected in the class [Collaborators]; the few effects of
      it that the loop relies on are modelled from the specification and
      marked as such. *)

From stdpp Require Import base numbers list sorting strings gmap.

Local Open Scope Z_scope.

(** ** Exceptions and results *)

Inductive exception : Set :=
  | ValueError          (* numpy: empty stack / argmax, shape mismatch *)
  | IndexError          (* list.pop, list indexing *)
  | AssertionError      (* assert *)
  | UnboundLocalError   (* a local read before any assignment *)
  | ReferenceError.     (* model only: a location that is not allocated *)

Inductive result (A : Type) : Type :=
  | Ok (a : A)
  | Raise (e : exception).
Arguments Ok {A} a.
Arguments Raise {A} e.

Definition rbind {A B} (r : result A) (k : A → result B) : result B :=
  match r with
  | Ok a => k a
  | Raise e => Raise e
  end.

(** A list comprehension [[f x for x in l]] whose body can raise: the first
    failing element aborts the comprehension. *)
Fixpoint comprehension {A B} (f : A → result B) (l : list A) : result (list B) :=
  match l with
  | [] => Ok []
  | x :: t => rbind (f x) (λ y, rbind (comprehension f t) (λ ys, Ok (y :: ys)))
  end.

(** ** The numpy primitives the coordinator uses *)

Module np.

(** [np.dot] on two 1-D arrays: the lengths must agree. *)
Definition dot (a b : list Z) : result Z :=
  if decide (length a = length b)
  then Ok (foldr Z.add 0 (zip_with Z.mul a b))
  else Raise ValueError.

(** The scan behind [np.argmax]: keep the best value seen and its index,
    move on only when a strictly larger value shows up. *)
Fixpoint argmax_from (best : Z) (besti i : nat) (l : list Z) : nat :=
  match l with
  | [] => besti
  | x :: t =>
      if best <? x then argmax_from x i (S i) t
      else argmax_from best besti (S i) t
  end.

(** [np.argmax] of a flat sequence; the empty sequence is an error. *)
Definition argmax (l : list Z) : result nat :=
  match l with
  | [] => Raise ValueError
  | x :: t => Ok (argmax_from x 0%nat 1%nat t)
  end.

Record ndarray2 : Type := mk_ndarray2 { shape : nat * nat; data : list Z }.

(** [np.stack] of a list of 1-D arrays: at least one array, all of the
    same length.  [data] is the row-major (C order) layout. *)
Definition stack (rows : list (list Z)) : result ndarray2 :=
  match rows with
  | [] => Raise ValueError
  | r :: rs =>
      if forallb (λ r', Nat.eqb (length r') (length r)) rs
      then Ok (mk_ndarray2 (length rows, length r) (concat rows))
      else Raise ValueError
  end.

(** [np.unravel_index] for a 2-D shape, C order. *)
Definition unravel_index (idx : nat) (sh : nat * nat) : result (nat * nat) :=
  if decide (idx < fst sh * snd sh)%nat
  then Ok ((idx / snd sh)%nat, (idx mod snd sh)%nat)
  else Raise ValueError.

End np.

(** ** Python list operations *)

(** [l.pop(i)]: a negative index counts from the end; an index outside
    [-len, len) raises IndexError.  The popped element is not used by the
    coordinator, so only the remaining list is returned. *)
Definition pop {A} (i : Z) (l : list A) : result (list A) :=
  let n := Z.of_nat (length l) in
  let j := if i <? 0 then i + n else i in
  if decide (0 ≤ j < n) then Ok (delete (Z.to_nat j) l) else Raise IndexError.

(** [l[i]] for a non-negative index (the result of [np.argmax]). *)
Definition getitem {A} (l : list A) (i : nat) : result A :=
  match l !! i with
  | Some x => Ok x
  | None => Raise IndexError
  end.

(** [sorted(l, reverse=True)] on integers. *)
Definition sorted_reverse (l : list Z) : list Z := merge_sort Z.ge l.

(** The loop [for i in sorted(delete_indx, reverse=True): l.pop(i)].  The
    list is mutated in place, so when a pop raises, the pops done before it
    stay: the list reached so far is returned next to the outcome. *)
Fixpoint pop_each {A} (idxs : list Z) (l : list A) : list A * result unit :=
  match idxs with
  | [] => (l, Ok tt)
  | i :: rest =>
      match pop i l with
      | Ok l' => pop_each rest l'
      | Raise e => (l, Raise e)
      end
  end.

Definition pop_sorted_reverse {A} (delete_indx : list Z) (l : list A) : list A * result unit :=
  pop_each (sorted_reverse delete_indx) l.

(** ** Objects and the store *)

Abbreviation loc := positive.

(** A Q-table is a dictionary from an observation (as a tuple) to the array
    of per-action value vectors.  The arrays are owned by their dictionary:
    [deepcopy] copies them with it, so one location stands for the whole
    dictionary object. *)
Abbreviation QTable := (gmap (list Z) (list (list Z))).

(** The sub-policy object [MOQLearning], as far as the coordinator reads or
    writes it. *)
Module MOQLearning.
Record t : Type := mk {
  id : Z;
  weights : list Z;
  q_table : loc;
  global_step : Z
}.
Definition set_q_table (l : loc) (a : t) : t :=
  mk (id a) (weights a) l (global_step a).
Definition set_global_step (n : Z) (a : t) : t :=
  mk (id a) (weights a) (q_table a) n.
End MOQLearning.

(** The frontier service [LinearSupport], as far as the coordinator reads
    it: the ordered list of frontier value vectors. *)
Module LinearSupport.
Record t : Type := mk { ccs : list (list Z) }.
End LinearSupport.

(** The coordinator object.  The learning hyper-parameters (learning rate,
    discount, exploration schedule, dyna settings) are only handed on to
    the sub-policy constructor and are part of the collaborators' side. *)
Module MPMOQLearning.
Record t : Type := mk {
  use_gpi_policy : bool;
  transfer_q_table : bool;
  policies : list loc;
  weight_selection_algo : string;
  linear_support : LinearSupport.t;
  log : bool;
  reward_dim : nat;
  global_step : Z
}.
Definition set_policies (l : list loc) (c : t) : t :=
  mk (use_gpi_policy c) (transfer_q_table c) l (weight_selection_algo c)
     (linear_support c) (log c) (reward_dim c) (global_step c).
Definition set_ccs (f : list (list Z)) (c : t) : t :=
  mk (use_gpi_policy c) (transfer_q_table c) (policies c) (weight_selection_algo c)
     (LinearSupport.mk f) (log c) (reward_dim c) (global_step c).
Definition set_global_step (n : Z) (c : t) : t :=
  mk (use_gpi_policy c) (transfer_q_table c) (policies c) (weight_selection_algo c)
     (linear_support c) (log c) (reward_dim c) n.
End MPMOQLearning.

(** The whole state a call can see or change: the coordinator, the store of
    sub-policy objects and of Q-table dictionaries, the outside world
    (environments, random generator, logging sink, the frontier service's
    private state), and a ghost record [produced] of which policy object's
    evaluation yielded which value vector. *)
Record Machine (World : Type) : Type := mkMachine {
  self : MPMOQLearning.t;
  agents : gmap loc MOQLearning.t;
  tables : gmap loc QTable;
  world : World;
  produced : list (loc * list Z)
}.
Arguments mkMachine {World}.
Arguments self {World}.
Arguments agents {World}.
Arguments tables {World}.
Arguments world {World}.
Arguments produced {World}.

(** ** Collaborators *)

(** What the coordinator calls and its source file does not define.  Each
    takes the world it may read or change. *)
Class Collaborators (World : Type) : Type := {
  (** [random_weights(dim)] *)
  random_weights : nat → World → list Z * World;
  (** [equally_spaced_weights(dim, n)] *)
  equally_spaced_weights : nat → Z → list (list Z);
  (** [LinearSupport.next_weight(algo, gpi_agent, env, rep_eval)]: the
      optional agent is used through its [eval] only. *)
  next_weight :
    string → option (list Z → list Z → result nat) → Z → list (list Z) →
    World → list Z * World;
  (** The index set [LinearSupport.add_solution] decides to drop, for the
      frontier extended with the new value. *)
  obsolete_indices : list (list Z) → list Z → World → list Z * World;
  (** [MOQLearning.scalarized_q_values(obs, w)] *)
  scalarized_q_values :
    MOQLearning.t → QTable → list Z → list Z → result (list Z);
  (** [MOQLearning.eval(obs, w)] *)
  policy_eval :
    MOQLearning.t → QTable → list Z → list Z → result nat;
  (** The Q-table a sub-policy has learnt after a training budget. *)
  learn :
    MOQLearning.t → QTable → Z → World → QTable * World;
  (** [policy_evaluation_mo(agent, env, w, rep)[3]]: the agent is used
      through its [eval] only. *)
  policy_evaluation_mo :
    (list Z → list Z → result nat) → list Z → Z → World → result (list Z) * World;
  (** [log_all_multi_policy_metrics(current_front, ..., global_step, ...)] *)
  log_all_multi_policy_metrics : list (list Z) → Z → World → World;
  (** [close_wandb()] *)
  close_wandb : World → World
}.

Section Coordinator.
Context {World : Type} `{Collaborators World}.

Abbreviation machine := (Machine World).

(** *** State and exceptions *)

(** A call changes the machine and either returns or raises; what was
    changed before an exception stays changed. *)
Definition M (A : Type) : Type := machine → machine * result A.

Definition ret {A} (a : A) : M A := λ m, (m, Ok a).

Definition bind {A B} (c : M A) (k : A → M B) : M B := λ m,
  match c m with
  | (m', Ok a) => k a m'
  | (m', Raise e) => (m', Raise e)
  end.

(** A computation that only reads the machine. *)
Definition reading {A} (f : machine → result A) : M A := λ m, (m, f m).

Definition modify (f : machine → machine) : M unit := λ m, (f m, Ok tt).

Notation "'do' x <- c ; k" := (bind c (λ x, k))
  (at level 10, x name, c at level 100, k at level 200).

Definition set_self (f : MPMOQLearning.t → MPMOQLearning.t) (m : machine) : machine :=
  mkMachine (f (self m)) (agents m) (tables m) (world m) (produced m).
Definition set_agent (l : loc) (a : MOQLearning.t) (m : machine) : machine :=
  mkMachine (self m) (<[l := a]> (agents m)) (tables m) (world m) (produced m).
Definition set_table (l : loc) (t : QTable) (m : machine) : machine :=
  mkMachine (self m) (agents m) (<[l := t]> (tables m)) (world m) (produced m).
Definition set_world (w : World) (m : machine) : machine :=
  mkMachine (self m) (agents m) (tables m) w (produced m).
Definition record_produced (l : loc) (v : list Z) (m : machine) : machine :=
  mkMachine (self m) (agents m) (tables m) (world m) (produced m ++ [(l, v)]).

Definition policies (m : machine) : list loc := MPMOQLearning.policies (self m).
Definition ccs (m : machine) : list (list Z) :=
  LinearSupport.ccs (MPMOQLearning.linear_support (self m)).

(** Following a reference. *)
Definition agent_at (l : loc) (m : machine) : result MOQLearning.t :=
  match agents m !! l with
  | Some a => Ok a
  | None => Raise ReferenceError
  end.
Definition table_at (l : loc) (m : machine) : result QTable :=
  match tables m !! l with
  | Some t => Ok t
  | None => Raise ReferenceError
  end.

(** [policy.scalarized_q_values(state, w)] and [policy.eval(obs, w)] on a
    policy object of the store. *)
Definition MOQLearning_scalarized_q_values (policy : loc) (state w : list Z)
    (m : machine) : result (list Z) :=
  rbind (agent_at policy m) (λ a,
  rbind (table_at (MOQLearning.q_table a) m) (λ t,
  scalarized_q_values a t state w)).

Definition MOQLearning_eval (policy : loc) (m : machine) (obs w : list Z) : result nat :=
  rbind (agent_at policy m) (λ a,
  rbind (table_at (MOQLearning.q_table a) m) (λ t,
  policy_eval a t obs w)).

(** *** [MPMOQLearning.__init__] (lines 28-98) *)

(** Modelled from the spec: the step counter that [MOAgent.__init__], which
    is not part of this source file, gives a new agent.  "GlobalStep: a
    single monotonically increasing counter shared across iterations,
    representing total environment interactions consumed so far": none so
    far. *)
Definition MOAgent_global_step : Z := 0.

(** Modelled from the spec: the frontier of a new [LinearSupport], whose
    constructor is not part of this source file.  "the coordinator
    incrementally discovers and prunes this set": nothing is discovered
    yet. *)
Definition LinearSupport_new : LinearSupport.t := LinearSupport.mk [].

(** [reward_dim] is what [MOAgent.__init__] reads off the environment; the
    assertion on the strategy name is line 83.  An exception leaves no
    object behind.  Setting up the logging sink is left to the world. *)
Definition __init__ (reward_dim : nat) (weight_selection_algo : string)
    (use_gpi_policy transfer_q_table log : bool) : result MPMOQLearning.t :=
  if decide (weight_selection_algo ∈ ["random"; "ols"; "gpi-ls"]%string)
  then Ok (MPMOQLearning.mk use_gpi_policy transfer_q_table [] weight_selection_algo
             LinearSupport_new log reward_dim MOAgent_global_step)
  else Raise AssertionError.

(** *** [MPMOQLearning._gpi_action] (lines 118-132) *)
Definition _gpi_action (state w : list Z) (m : machine) : result nat :=
  rbind (comprehension (λ policy, MOQLearning_scalarized_q_values policy state w m)
           (policies m)) (λ rows,
  rbind (np.stack rows) (λ q_vals,
  rbind (np.argmax (np.data q_vals)) (λ flat,
  rbind (np.unravel_index flat (np.shape q_vals)) (λ '(_, action),
  Ok action)))).

(** *** [MPMOQLearning.eval] (lines 134-140)

    [w] is a weight vector; the default [w=None] of the signature is not
    one and is left out. *)
Definition eval (m : machine) (obs w : list Z) : result nat :=
  if MPMOQLearning.use_gpi_policy (self m) then _gpi_action obs w m
  else
    rbind (comprehension (λ v, np.dot w v) (ccs m)) (λ dots,
    rbind (np.argmax dots) (λ best_policy,
    rbind (getitem (policies m) best_policy) (λ policy,
    MOQLearning_eval policy m obs w))).

(** *** [MPMOQLearning.delete_policies] (lines 142-145) *)
Definition delete_policies (delete_indx : list Z) : M unit := λ m,
  let '(l, r) := pop_sorted_reverse delete_indx (policies m) in
  (set_self (MPMOQLearning.set_policies l) m, r).

(** *** The sub-policy and the frontier service, as the loop uses them *)

(** Modelled from the spec: the constructor of [MOQLearning], which is
    not part of this source file.  "SubPolicy: owns an identifier, the
    weight vector it was trained for, a mutable value-table, and training
    progress counters"; "instantiate a new SubPolicy bound to the selected
    weight".  The new object and its (empty) table are new in the store. *)
Definition MOQLearning_new (id : Z) (weights : list Z) : M loc := λ m,
  let lt := fresh (dom (tables m)) in
  let la := fresh (dom (agents m)) in
  (set_agent la (MOQLearning.mk id weights lt 0) (set_table lt ∅ m), Ok la).

(** Modelled from the spec: [MOQLearning.train], which is not part of this
    source file.  "mutates internal value-table and step counter; must
    support non-resetting step continuation"; "run the new policy's own
    bounded training routine for a fixed interaction budget, continuing
    its step counter from GlobalStep rather than resetting to zero".  The
    routine makes [total_timesteps] interactions (none for a budget that
    is not positive) and counts each of them. *)
Definition MOQLearning_train (agent : loc) (total_timesteps : Z)
    (reset_num_timesteps : bool) : M unit :=
  do a <- reading (agent_at agent);
  do t <- reading (table_at (MOQLearning.q_table a));
  λ m,
    let '(t', world') := learn a t total_timesteps (world m) in
    let start := if reset_num_timesteps then 0 else MOQLearning.global_step a in
    (set_world world'
       (set_agent agent
          (MOQLearning.set_global_step (start + Z.max 0 total_timesteps) a)
          (set_table (MOQLearning.q_table a) t' m)),
     Ok tt).

(** Modelled from the spec: [LinearSupport.add_solution], which is not
    part of this source file.  "submit (ValueVector, weight) to the
    Frontier Service; receive back the index set of now-dominated frontier
    entries (which may include the entry just added ...)"; "Any pruning
    operation must remove entries from both structures using the same
    index set, applied high-to-low index order".  Which entries are
    dropped is the service's choice ([obsolete_indices]). *)
Definition add_solution (value w : list Z) : M (list Z) := λ m,
  let '(removed, world') := obsolete_indices (ccs m ++ [value]) w (world m) in
  match pop_sorted_reverse removed (ccs m ++ [value]) with
  | (front, Ok _) =>
      (set_world world' (set_self (MPMOQLearning.set_ccs front) m), Ok removed)
  | (_, Raise e) => (set_world world' m, Raise e)
  end.

(** *** [MPMOQLearning.train] (lines 147-239) *)

(** Lines 177-185.  [w] is a local of [train]: when no branch assigns it,
    the value of the previous iteration is still bound, and in the first
    iteration nothing is. *)
Definition select_weight (num_episodes_eval : Z) (w : option (list Z)) : M (list Z) := λ m,
  let algo := MPMOQLearning.weight_selection_algo (self m) in
  if decide (algo = "ols" ∨ algo = "gpi-ls")%string then
    let '(w', world') :=
      next_weight algo
        (if decide (algo = "gpi-ls"%string) then Some (eval m) else None)
        num_episodes_eval (ccs m) (world m) in
    (set_world world' m, Ok w')
  else if decide (algo = "random"%string) then
    let '(w', world') := random_weights (MPMOQLearning.reward_dim (self m)) (world m) in
    (set_world world' m, Ok w')
  else
    match w with
    | Some w' => (m, Ok w')
    | None => (m, Raise UnboundLocalError)
    end.

(** [deepcopy] of a Q-table dictionary: a new dictionary object with the
    same contents. *)
Definition deepcopy (l : loc) : M loc :=
  do t <- reading (table_at l);
  λ m, let l' := fresh (dom (tables m)) in (set_table l' t m, Ok l').

(** Lines 202-204. *)
Definition transfer (w : list Z) (new_agent : loc) : M unit := λ m,
  if MPMOQLearning.transfer_q_table (self m) && bool_decide (0 < length (policies m))%nat
  then
    (do reuse_ind <- reading (λ m, rbind (comprehension (λ v, np.dot w v) (ccs m)) np.argmax);
     do source <- reading (λ m, getitem (policies m) reuse_ind);
     do a <- reading (agent_at source);
     do copy <- deepcopy (MOQLearning.q_table a);
     do new <- reading (agent_at new_agent);
     modify (set_agent new_agent (MOQLearning.set_q_table copy new))) m
  else (m, Ok tt).

(** Lines 222-236.  In GPI mode the front is the evaluation of the
    coordinator itself, through [eval], for each evaluation weight. *)
Fixpoint gpi_front (num_episodes_eval : Z) (eval_weights : list (list Z)) : M (list (list Z)) :=
  match eval_weights with
  | [] => ret []
  | w :: rest =>
      do v <- (λ m, let '(r, world') :=
                      policy_evaluation_mo (eval m) w num_episodes_eval (world m) in
                    (set_world world' m, r));
      do vs <- gpi_front num_episodes_eval rest;
      ret (v :: vs)
  end.

Definition log_iteration (num_episodes_eval : Z) (eval_weights : list (list Z)) : M unit := λ m,
  if MPMOQLearning.log (self m) then
    (do front <- (if MPMOQLearning.use_gpi_policy (self m)
                  then gpi_front num_episodes_eval eval_weights
                  else reading (λ m, Ok (ccs m)));
     modify (λ m, set_world
                    (log_all_multi_policy_metrics front
                       (MPMOQLearning.global_step (self m)) (world m)) m)) m
  else (m, Ok tt).

(** Lines 177-236: the body of the loop, for iteration [iter].  It returns
    the weight it leaves bound to the local [w]. *)
Definition train_iteration (timesteps_per_iteration num_episodes_eval : Z)
    (eval_weights : list (list Z)) (iter : Z) (w0 : option (list Z)) : M (option (list Z)) :=
  do w <- select_weight num_episodes_eval w0;
  do new_agent <- MOQLearning_new iter w;
  do _ <- transfer w new_agent;
  do _ <- modify (λ m, set_self (MPMOQLearning.set_policies (policies m ++ [new_agent])) m);
  do g <- reading (λ m, Ok (MPMOQLearning.global_step (self m)));
  do a <- reading (agent_at new_agent);
  do _ <- modify (set_agent new_agent (MOQLearning.set_global_step g a));
  do _ <- MOQLearning_train new_agent timesteps_per_iteration false;
  do a' <- reading (agent_at new_agent);
  do _ <- modify (set_self (MPMOQLearning.set_global_step (MOQLearning.global_step a')));
  do value <- (λ m, let '(r, world') :=
                      policy_evaluation_mo (MOQLearning_eval new_agent m) w
                        num_episodes_eval (world m) in
                    (set_world world' m, r));
  do _ <- modify (record_produced new_agent value);
  do removed_inds <- add_solution value w;
  do _ <- delete_policies removed_inds;
  do _ <- log_iteration num_episodes_eval eval_weights;
  ret (Some w).

(** [for iter in range(...)]: the iterations in order, the first exception
    ends the loop. *)
Fixpoint train_loop (timesteps_per_iteration num_episodes_eval : Z)
    (eval_weights : list (list Z)) (iters : list Z) (w : option (list Z)) : M (option (list Z)) :=
  match iters with
  | [] => ret w
  | iter :: rest =>
      do w' <- train_iteration timesteps_per_iteration num_episodes_eval eval_weights iter w;
      train_loop timesteps_per_iteration num_episodes_eval eval_weights rest w'
  end.

Definition range (n : Z) : list Z := Z.of_nat <$> seq 0 (Z.to_nat n).

(** The evaluation environment, the reference point, the known front and
    the evaluation frequency only reach the collaborators and are part of
    the world.  The logging sink exists exactly when [log] is set. *)
Definition train (num_iterations timesteps_per_iteration : Z)
    (eval_weights_number_for_front num_episodes_eval : Z) : M unit :=
  do eval_weights <- reading (λ m, Ok (equally_spaced_weights
                                          (MPMOQLearning.reward_dim (self m))
                                          eval_weights_number_for_front));
  do _ <- train_loop timesteps_per_iteration num_episodes_eval eval_weights
            (range num_iterations) None;
  λ m, if MPMOQLearning.log (self m)
       then (set_world (close_wandb (world m)) m, Ok tt)
       else (m, Ok tt).

(** *** Reference definitions for the statements *)

(** The state after the first [k] iterations of a run of [train]. *)
Definition after_iterations (k : nat) (timesteps_per_iteration : Z)
    (eval_weights_number_for_front num_episodes_eval : Z) : M (option (list Z)) :=
  do eval_weights <- reading (λ m, Ok (equally_spaced_weights
                                          (MPMOQLearning.reward_dim (self m))
                                          eval_weights_number_for_front));
  train_loop timesteps_per_iteration num_episodes_eval eval_weights
    (range (Z.of_nat k)) None.

End Coordinator.

(** The entries of [l] whose position is not listed in [idxs], in their
    order in [l]: what "removing the entries at those positions and keeping
    the relative order of the rest" means. *)
Fixpoint remove_positions_from {A} (k : nat) (idxs : list Z) (l : list A) : list A :=
  match l with
  | [] => []
  | x :: t =>
      if decide (Z.of_nat k ∈ idxs) then remove_positions_from (S k) idxs t
      else x :: remove_positions_from (S k) idxs t
  end.
Definition remove_positions {A} (idxs : list Z) (l : list A) : list A :=
  remove_positions_from 0 idxs l.

(** ** Vocabulary of the statements *)

(** The scalarized value of action [a] under policy number [p], in the
    stacked array whose rows are the policies' value vectors. *)
Definition q_value (rows : list (list Z)) (p a : nat) : option Z :=
  rows !! p ≫= (.!! a).

(** The largest element of a list. *)
Definition list_max_Z (l : list Z) : option Z :=
  match l with
  | [] => None
  | x :: t => Some (foldr Z.max x t)
  end.

(** [max over the policies of Q(policy, a)]. *)
Definition pool_max (rows : list (list Z)) (a : nat) : option Z :=
  list_max_Z (omap (.!! a) rows).

(** Position [(p', a')] comes before [(p, a)] in row-major order: policies
    in pool order, then actions in index order. *)
Definition row_major_before (p' a' p a : nat) : Prop :=
  (p' < p)%nat ∨ (p' = p ∧ a' < a)%nat.

(** Index alignment of the pool with the frontier: equal lengths, and the
    pairs (pool entry, frontier entry) at equal positions are, in order,
    pairs of a policy object and the value its evaluation produced. *)
Definition aligned {World} (m : Machine World) : Prop :=
  length (policies m) = length (ccs m)
  ∧ zip (policies m) (ccs m) `sublist_of` produced m.

(** Every pool entry refers to a sub-policy of the store, and that one to a
    Q-table of the store. *)
Definition pool_allocated {World} (m : Machine World) : Prop :=
  ∀ l, l ∈ policies m →
    ∃ a, agents m !! l = Some a ∧ is_Some (tables m !! MOQLearning.q_table a).

(** A weight vector for [k] objectives: [k] non-negative components. *)
Definition weight_vector (k : nat) (w : list Z) : Prop :=
  length w = k ∧ Forall (λ x, 0 ≤ x) w.

(** The state of the three-iteration scenario after [k] iterations with a
    budget of [T] steps each. *)
Definition scenario_inv {World} (T : Z) (k : nat) (m : Machine World) : Prop :=
  (length (policies m) ≤ k)%nat
  ∧ MPMOQLearning.global_step (self m) = Z.of_nat k * T
  ∧ MPMOQLearning.weight_selection_algo (self m) = "random"%string
  ∧ MPMOQLearning.reward_dim (self m) = 2%nat
  ∧ (∀ l, l ∈ policies m →
       ∃ a, agents m !! l = Some a ∧ weight_vector 2 (MOQLearning.weights a)).

(** ** Concrete collaborators and machines, for the examples *)

(** A tabular sub-policy over two actions: the scalarized values of an
    observation are the products of its stored value vectors with the
    weight, and zero for an observation it has not seen. *)
Definition tabular_q_values (t : QTable) (obs w : list Z) : result (list Z) :=
  match t !! obs with
  | Some q => comprehension (λ q_a, np.dot q_a w) q
  | None => Ok [0; 0]
  end.

(** A world that is a counter [n].  Random weights are [(n, 1, ..., 1)];
    training leaves the table as it is; the evaluation of a policy yields
    the weight it was asked for; the frontier service drops its oldest
    entry once it holds more than two. *)
Definition toy : Collaborators nat := {|
  random_weights := λ k n, (Z.of_nat n :: replicate (k - 1) 1, S n);
  equally_spaced_weights := λ _ _, [[1; 0]; [0; 1]];
  next_weight := λ _ _ _ _ n, ([1; 0], S n);
  obsolete_indices := λ front _ n, (if decide (2 < length front)%nat then [0] else [], n);
  scalarized_q_values := λ _ t obs w, tabular_q_values t obs w;
  policy_eval := λ _ t obs w, rbind (tabular_q_values t obs w) np.argmax;
  learn := λ _ t _ n, (t, n);
  policy_evaluation_mo := λ _ w _ n, (Ok w, n);
  log_all_multi_policy_metrics := λ _ _ n, n;
  close_wandb := λ n, n
|}.

Definition toy_agent (l : loc) : MOQLearning.t := MOQLearning.mk 0 [1; 0] l 0.

(** A coordinator with the given pool and frontier; the policy at location
    [l] has an empty table at location [10 * l]. *)
Definition toy_machine (gpi : bool) (pool : list loc) (front : list (list Z)) : Machine nat :=
  mkMachine
    (MPMOQLearning.mk gpi true pool "random" (LinearSupport.mk front) false 2 0)
    (list_to_map ((λ l, (l, toy_agent (10 * l)%positive)) <$> pool))
    (list_to_map ((λ l, ((10 * l)%positive, (∅ : QTable))) <$> pool))
    0%nat [].

(** A pool of two policies, the first tuned for the first objective and
    the second for the second, with their frontier values; a third policy
    object, not in the pool, as the policy under construction. *)
Definition two_policy_machine (gpi : bool) : Machine nat :=
  mkMachine
    (MPMOQLearning.mk gpi true [1; 2]%positive "random"
       (LinearSupport.mk [[10; 0]; [0; 10]]) false 2 0)
    (<[1%positive := MOQLearning.mk 0 [1; 0] 10%positive 0]>
       (<[2%positive := MOQLearning.mk 1 [0; 1] 20%positive 0]>
          (<[3%positive := MOQLearning.mk 2 [1; 3] 30%positive 0]> ∅)))
    (<[10%positive := {[ [0] := [[10; 0]; [4; 4]] ]}]>
       (<[20%positive := {[ [0] := [[0; 10]; [3; 9]] ]}]>
          (<[30%positive := ∅]> ∅)))
    0%nat [].

(** A coordinator as [__init__] leaves it, with an empty store. *)
Definition fresh_machine (use_gpi_policy transfer_q_table log : bool) : Machine nat :=
  mkMachine
    (MPMOQLearning.mk use_gpi_policy transfer_q_table [] "random" (LinearSupport.mk [])
       log 2 0)
    ∅ ∅ 0%nat [].

(** ** Further definitions: best-match selection and the configuration *)

(** Lines 139-140: the policy that best-match mode selects for [w]. *)
Definition best_match_policy {World} (m : Machine World) (w : list Z) : result loc :=
  rbind (comprehension (λ v, np.dot w v) (ccs m)) (λ dots,
  rbind (np.argmax dots) (λ best_policy,
  getitem (policies m) best_policy)).








(** The state [m'] of a run that started in [m] and has done [k]
    iterations, as far as the pool goes: at most [k] more entries, each
    either in the pool of [m] or an object [m] did not have. *)
Definition grown_from {World} (m : Machine World) (k : nat) (m' : Machine World) : Prop :=
  (length (policies m') ≤ length (policies m) + k)%nat
  ∧ (∀ l, l ∈ policies m' → l ∈ policies m ∨ agents m !! l = None)
  ∧ (∀ l, is_Some (agents m !! l) → is_Some (agents m' !! l)).

(** No policy object is in the pool twice, and every entry is in the store. *)
Definition distinct_pool {World} (m : Machine World) : Prop :=
  NoDup (policies m) ∧ ∀ l, l ∈ policies m → is_Some (agents m !! l).

(** Two policies whose tables give value vectors over two actions and over
    one action for the observation [[0]]. *)
Definition ragged_machine : Machine nat :=
  mkMachine
    (MPMOQLearning.mk true true [1; 2]%positive "random"
       (LinearSupport.mk [[10; 0]; [0; 10]]) false 2 0)
    (<[1%positive := MOQLearning.mk 0 [1; 0] 10%positive 0]>
       (<[2%positive := MOQLearning.mk 1 [0; 1] 20%positive 0]> ∅))
    (<[10%positive := {[ [0] := [[10; 0]; [4; 4]] ]}]>
       (<[20%positive := {[ [0] := [[0; 10]] ]}]> ∅))
    0%nat [].

(** A coordinator whose strategy name was overwritten after construction. *)
Definition renamed_strategy_machine : Machine nat :=
  mkMachine
    (MPMOQLearning.mk false false [] "greedy" (LinearSupport.mk []) false 2 0)
    ∅ ∅ 0%nat [].

(** A pool of one policy under a frontier of two vectors, as a removal of
    policies on its own leaves it. *)
Definition short_pool_machine : Machine nat :=
  toy_machine false [1]%positive [[1; 0]; [0; 1]].


(** ** Tactics *)

(** Projections of the records applied to constructors and setters; the
    setters are opened only under a projection. *)
Ltac record_simpl :=
  cbn [self agents tables world produced policies ccs
       set_self set_agent set_table set_world record_produced
       MPMOQLearning.use_gpi_policy MPMOQLearning.transfer_q_table
       MPMOQLearning.policies MPMOQLearning.weight_selection_algo
       MPMOQLearning.linear_support MPMOQLearning.log MPMOQLearning.reward_dim
       MPMOQLearning.global_step MPMOQLearning.set_policies MPMOQLearning.set_ccs
       MPMOQLearning.set_global_step LinearSupport.ccs
       MOQLearning.id MOQLearning.weights MOQLearning.q_table MOQLearning.global_step
       MOQLearning.set_q_table MOQLearning.set_global_step fst snd] in *.

(** A decidable closed proposition, settled by evaluating its decision
    procedure. *)
Ltac by_computation := apply (bool_decide_unpack _); vm_compute; exact I.

(** * Properties *)

(** ** Results *)

Lemma rbind_Ok {A B} (r : result A) (k : A → result B) b :
  rbind r k = Ok b ↔ ∃ a, r = Ok a ∧ k a = Ok b.
Proof.
  destruct r as [a|e]; simpl.
  - split; [eauto | by intros (a' & [= <-] & ?)].
  - split; [done | by intros (a' & ? & ?)].
Qed.

Lemma comprehension_Ok {A B} (f : A → result B) l ys :
  comprehension f l = Ok ys ↔ Forall2 (λ x y, f x = Ok y) l ys.
Proof.
  revert ys. induction l as [|x t IH]; intros ys; simpl.
  - split; [intros [= <-]; constructor | by inversion 1].
  - rewrite rbind_Ok. split.
    + intros (y & Hy & Ht). apply rbind_Ok in Ht as (ys' & Hys' & [= <-]).
      constructor; [done | by apply IH].
    + intros Hall. apply Forall2_cons_inv_l in Hall as (y & ys' & Hy & Ht & ->). exists y. split; [done|].
      apply rbind_Ok. exists ys'. split; [by apply IH | done].
Qed.

(** ** [np.argmax]: the first position of the maximum *)

Lemma argmax_from_spec l : ∀ pre best besti,
  pre !! besti = Some best →
  (∀ j x, pre !! j = Some x → x ≤ best) →
  (∀ j x, (j < besti)%nat → pre !! j = Some x → x < best) →
  ∃ top, (pre ++ l) !! np.argmax_from best besti (length pre) l = Some top
    ∧ (∀ j x, (pre ++ l) !! j = Some x → x ≤ top)
    ∧ (∀ j x, (j < np.argmax_from best besti (length pre) l)%nat →
              (pre ++ l) !! j = Some x → x < top).
Proof.
  induction l as [|y t IH]; intros pre best besti Hbest Hle Hlt; simpl.
  - rewrite app_nil_r. eauto.
  - assert (Hlen : length (pre ++ [y]) = S (length pre)).
    { rewrite length_app. simpl. lia. }
    replace (pre ++ y :: t) with ((pre ++ [y]) ++ t) by by rewrite <-app_assoc.
    rewrite <-Hlen.
    assert (Hlast : ∀ j x, (pre ++ [y]) !! j = Some x →
              pre !! j = Some x ∨ (j = length pre ∧ x = y)).
    { intros j x Hj. apply lookup_app_Some in Hj as [?|[? Hj]]; [by left|right].
      apply list_lookup_singleton_Some in Hj as [? ->]. split; [lia | done]. }
    destruct (Z.ltb_spec best y) as [Hby|Hby].
    + apply IH.
      * by rewrite lookup_app_r, Nat.sub_diag by lia.
      * intros j x Hj. destruct (Hlast j x Hj) as [Hj'|[_ ->]]; [|lia].
        specialize (Hle j x Hj'). lia.
      * intros j x Hjlt Hj. destruct (Hlast j x Hj) as [Hj'|[-> _]]; [|lia].
        specialize (Hle j x Hj'). lia.
    + apply IH.
      * apply lookup_app_l_Some. done.
      * intros j x Hj. destruct (Hlast j x Hj) as [Hj'|[_ ->]]; [eauto | lia].
      * intros j x Hjlt Hj. destruct (Hlast j x Hj) as [Hj'|[-> _]]; [eauto|].
        apply lookup_lt_Some in Hbest. lia.
Qed.

Lemma argmax_spec l :
  l ≠ [] →
  ∃ i top, np.argmax l = Ok i ∧ l !! i = Some top
    ∧ (∀ j x, l !! j = Some x → x ≤ top)
    ∧ (∀ j x, (j < i)%nat → l !! j = Some x → x < top).
Proof.
  destruct l as [|y t]; [done|]. intros _.
  destruct (argmax_from_spec t [y] y 0%nat) as (top & H1 & H2 & H3).
  - done.
  - intros [|j] x; simpl; [intros [= ->]; lia | done].
  - intros; lia.
  - exists (np.argmax_from y 0 1 t), top. simpl in *. eauto.
Qed.

(** ** Row-major layout of a stack of rows of equal length *)

Lemma concat_lookup_uniform (rows : list (list Z)) (n : nat) :
  Forall (λ r, length r = n) rows →
  ∀ p a, (a < n)%nat → concat rows !! (p * n + a)%nat = rows !! p ≫= (.!! a).
Proof.
  induction 1 as [|r rows Hr Hrows IH]; intros p a Ha; simpl.
  - by rewrite !lookup_nil.
  - destruct p as [|p]; simpl.
    + rewrite lookup_app_l by lia. done.
    + rewrite lookup_app_r by lia.
      replace (n + p * n + a - length r)%nat with (p * n + a)%nat by lia.
      by apply IH.
Qed.

Lemma concat_length_uniform (rows : list (list Z)) (n : nat) :
  Forall (λ r, length r = n) rows → length (concat rows) = (length rows * n)%nat.
Proof. induction 1 as [|r rows Hr Hrows IH]; simpl; [done|]. rewrite length_app. lia. Qed.

Lemma stack_uniform (rows : list (list Z)) (n : nat) :
  rows ≠ [] → Forall (λ r, length r = n) rows →
  np.stack rows = Ok (np.mk_ndarray2 (length rows, n) (concat rows)).
Proof.
  destruct rows as [|r rs]; [done|]. intros _ Hall.
  apply Forall_cons in Hall as [Hr Hrs]. unfold np.stack.
  replace (forallb _ rs) with true; [by rewrite Hr|].
  symmetry. apply forallb_forall. intros r' Hr'.
  apply Nat.eqb_eq. rewrite Hr. revert r' Hr'. apply List.Forall_forall. done.
Qed.

(** ** [pop] and the descending loop *)

Lemma Zge_total : Total Z.ge.
Proof. intros x y. lia. Qed.
Lemma Zge_trans : Transitive Z.ge.
Proof. intros x y z. lia. Qed.
Lemma Zge_antisymm : AntiSymm (=) Z.ge.
Proof. intros x y. lia. Qed.

Lemma sorted_reverse_Permutation l : sorted_reverse l ≡ₚ l.
Proof. apply merge_sort_Permutation. Qed.

Lemma sorted_reverse_perm_eq l1 l2 : l1 ≡ₚ l2 → sorted_reverse l1 = sorted_reverse l2.
Proof.
  intros Hp. apply (@Sorted_unique _ Z.ge Zge_trans Zge_antisymm).
  - apply (Sorted_merge_sort Z.ge (Total0:=Zge_total)).
  - apply (Sorted_merge_sort Z.ge (Total0:=Zge_total)).
  - by rewrite !sorted_reverse_Permutation.
Qed.

Lemma pop_Ok_inv {A} i (l l' : list A) :
  pop i l = Ok l' → ∃ j, (j < length l)%nat ∧ l' = delete j l.
Proof.
  unfold pop. case_decide as Hr; [|done]. intros [= <-].
  eexists. split; [|done]. destruct (i <? 0); lia.
Qed.

Lemma pop_in_range {A} i (l : list A) :
  0 ≤ i < Z.of_nat (length l) → pop i l = Ok (delete (Z.to_nat i) l).
Proof.
  intros Hi. unfold pop. destruct (Z.ltb_spec i 0); [lia|].
  by rewrite decide_True.
Qed.

Lemma pop_each_sublist {A} idxs : ∀ (l l' : list A) r,
  pop_each idxs l = (l', r) → l' `sublist_of` l.
Proof.
  induction idxs as [|i rest IH]; intros l l' r; simpl.
  - by intros [= <- _].
  - destruct (pop i l) as [l1|e] eqn:Hpop; [|by intros [= <- _]].
    intros Hrest. apply pop_Ok_inv in Hpop as (j & _ & ->).
    etrans; [by eapply IH | apply sublist_delete].
Qed.

Lemma pop_each_length {A} idxs : ∀ (l l' : list A),
  pop_each idxs l = (l', Ok tt) → (length l' + length idxs = length l)%nat.
Proof.
  induction idxs as [|i rest IH]; intros l l'; simpl.
  - intros [= <-]. lia.
  - destruct (pop i l) as [l1|e] eqn:Hpop; [|done].
    intros Hrest. apply IH in Hrest. apply pop_Ok_inv in Hpop as (j & Hj & ->).
    rewrite length_delete in Hrest by (apply lookup_lt_is_Some; lia). lia.
Qed.

Lemma zip_delete {A B} (l1 : list A) : ∀ (l2 : list B) j,
  zip (delete j l1) (delete j l2) = delete j (zip l1 l2).
Proof.
  induction l1 as [|x l1 IH]; intros [|y l2] [|j]; simpl; try done.
  - by destruct l1.
  - by rewrite IH.
Qed.

(** The same index list applied to two lists of equal length: the loop
    ends the same way on both, and pairs stay together. *)
Lemma pop_each_zip {A B} idxs : ∀ (l1 : list A) (l2 : list B),
  length l1 = length l2 →
  (pop_each idxs l1).2 = (pop_each idxs l2).2
  ∧ length (pop_each idxs l1).1 = length (pop_each idxs l2).1
  ∧ zip (pop_each idxs l1).1 (pop_each idxs l2).1 = (pop_each idxs (zip l1 l2)).1.
Proof.
  induction idxs as [|i rest IH]; intros l1 l2 Hlen; simpl; [done|].
  assert (Hz : length (zip l1 l2) = length l1) by (rewrite length_zip; lia).
  unfold pop. rewrite Hz, <-Hlen. case_decide as Hr; simpl; [|done].
  rewrite <-zip_delete. apply IH.
  rewrite !length_delete; [lia | |]; apply lookup_lt_is_Some; destruct (i <? 0); lia.
Qed.

(** ** Popping a descending list of positions removes exactly those positions *)

Lemma remove_positions_from_ext {A} idxs idxs' (l : list A) : ∀ k,
  (∀ x, x ∈ idxs ↔ x ∈ idxs') →
  remove_positions_from k idxs l = remove_positions_from k idxs' l.
Proof.
  induction l as [|x t IH]; intros k Hext; simpl; [done|].
  rewrite (IH (S k) Hext).
  destruct (decide (Z.of_nat k ∈ idxs)) as [Hin|Hin];
    destruct (decide (Z.of_nat k ∈ idxs')) as [Hin'|Hin']; try done;
    exfalso; apply Hext in Hin || apply Hext in Hin'; done.
Qed.

Lemma remove_positions_from_below {A} idxs (l : list A) : ∀ k,
  (∀ x, x ∈ idxs → x < Z.of_nat k) → remove_positions_from k idxs l = l.
Proof.
  induction l as [|x t IH]; intros k Hlt; simpl; [done|].
  rewrite decide_False by (intros Hin%Hlt; lia).
  f_equal. apply IH. intros y Hy%Hlt. lia.
Qed.

Lemma remove_positions_from_delete {A} rest (l : list A) : ∀ k i,
  (k ≤ i)%nat → (∀ x, x ∈ rest → x < Z.of_nat i) →
  remove_positions_from k rest (delete (i - k)%nat l)
  = remove_positions_from k (Z.of_nat i :: rest) l.
Proof.
  induction l as [|x t IH]; intros k i Hki Hlt; simpl; [done|].
  destruct (decide (i = k)) as [->|Hne].
  - rewrite Nat.sub_diag. simpl. rewrite decide_True by left.
    rewrite !remove_positions_from_below; [done | |].
    + intros y [->|Hy%Hlt]%elem_of_cons; lia.
    + intros y Hy%Hlt. lia.
  - replace (i - k)%nat with (S (i - S k)) by lia. simpl.
    rewrite (IH (S k) i) by (done || lia).
    destruct (decide (Z.of_nat k ∈ rest)) as [Hin|Hin].
    + by rewrite decide_True by by right.
    + rewrite decide_False; [done|]. intros [?|?]%elem_of_cons; [lia | done].
Qed.

Lemma pop_each_descending {A} s : ∀ (l : list A),
  StronglySorted Z.ge s → NoDup s →
  Forall (λ i, 0 ≤ i < Z.of_nat (length l)) s →
  pop_each s l = (remove_positions s l, Ok tt).
Proof.
  induction s as [|i rest IH]; intros l Hsorted Hnd Hrange; simpl.
  - unfold remove_positions. by rewrite remove_positions_from_below by (by intros ? ?%elem_of_nil).
  - apply StronglySorted_inv in Hsorted as [Hsorted Hge].
    apply NoDup_cons in Hnd as [Hi Hnd].
    apply Forall_cons in Hrange as [Hir Hrange].
    assert (Hlt : ∀ x, x ∈ rest → x < i).
    { intros x Hx. rewrite Forall_forall in Hge. specialize (Hge x Hx).
      assert (x ≠ i) by (by intros ->). lia. }
    rewrite pop_in_range by done.
    rewrite IH; [| done | done |].
    + f_equal. unfold remove_positions.
      rewrite <-(Z2Nat.id i) at 2 by lia.
      rewrite <-remove_positions_from_delete; [by rewrite Nat.sub_0_r | lia |].
      intros x Hx%Hlt. lia.
    + rewrite Forall_forall in Hrange |- *. intros x Hx.
      specialize (Hrange x Hx). specialize (Hlt x Hx).
      rewrite length_delete by (apply lookup_lt_is_Some; lia). lia.
Qed.

Lemma pop_sorted_reverse_correct {A} idxs (l : list A) :
  NoDup idxs → Forall (λ i, 0 ≤ i < Z.of_nat (length l)) idxs →
  pop_sorted_reverse idxs l = (remove_positions idxs l, Ok tt).
Proof.
  intros Hnd Hrange. unfold pop_sorted_reverse.
  rewrite pop_each_descending.
  - f_equal. apply remove_positions_from_ext. intros x.
    by rewrite sorted_reverse_Permutation.
  - apply (StronglySorted_merge_sort Z.ge (Transitive0:=Zge_trans) (Total0:=Zge_total)).
  - by rewrite sorted_reverse_Permutation.
  - by rewrite sorted_reverse_Permutation.
Qed.

Lemma remove_positions_sublist {A} idxs (l : list A) : ∀ k,
  remove_positions_from k idxs l `sublist_of` l.
Proof.
  induction l as [|x t IH]; intros k; simpl; [done|].
  case_decide; [by apply sublist_cons | by apply sublist_skip].
Qed.

(** Position by position: an entry survives exactly when its position is
    not listed, and the survivors keep their order. *)
Lemma remove_positions_from_filter {A} idxs (l : list A) : ∀ k,
  remove_positions_from k idxs l
  = (filter (λ ix, Z.of_nat ix.1 ∉ idxs) (zip (seq k (length l)) l)).*2.
Proof.
  induction l as [|x t IH]; intros k; simpl; [done|].
  rewrite filter_cons. simpl.
  destruct (decide (Z.of_nat k ∈ idxs)) as [Hin|Hin].
  - rewrite decide_False by (intros Hn; by apply Hn). apply IH.
  - rewrite decide_True by done. simpl. f_equal. apply IH.
Qed.

(** ** [delete_policies] *)

(** C3.  For a list of distinct in-range indices, [delete_policies] leaves
    in the pool exactly the entries whose position is not listed, in their
    former order; the outcome is the same for every ordering of the index
    list; and removing [[1]] from a pool [[A; B; C]] leaves [[A; C]]. *)
Theorem delete_policies_removes_positions {World} (m : Machine World) (delete_indx : list Z) :
  NoDup delete_indx →
  Forall (λ i, 0 ≤ i < Z.of_nat (length (policies m))) delete_indx →
  delete_policies delete_indx m
    = (set_self (MPMOQLearning.set_policies (remove_positions delete_indx (policies m))) m, Ok tt)
  ∧ remove_positions delete_indx (policies m)
    = (filter (λ ix, Z.of_nat ix.1 ∉ delete_indx)
         (zip (seq 0 (length (policies m))) (policies m))).*2
  ∧ remove_positions delete_indx (policies m) `sublist_of` policies m
  ∧ (∀ delete_indx', delete_indx' ≡ₚ delete_indx →
       delete_policies delete_indx' m = delete_policies delete_indx m)
  ∧ (∀ A B C, policies m = [A; B; C] → delete_indx = [1] →
       policies (delete_policies delete_indx m).1 = [A; C]).
Proof.
  intros Hnd Hrange. repeat split.
  - unfold delete_policies. by rewrite pop_sorted_reverse_correct.
  - apply remove_positions_from_filter.
  - apply remove_positions_sublist.
  - intros idxs' Hp. unfold delete_policies, pop_sorted_reverse.
    by rewrite (sorted_reverse_perm_eq _ _ Hp).
  - intros A B C HABC ->. unfold delete_policies. by rewrite HABC.
Qed.

Lemma delete_policies_removes_positions_witness :
  NoDup [2; 0]
  ∧ Forall (λ i, 0 ≤ i < Z.of_nat (length (policies (toy_machine false [1; 2; 3; 4]%positive [])))) [2; 0]
  ∧ policies (delete_policies [2; 0] (toy_machine false [1; 2; 3; 4]%positive [])).1 = [2; 4]%positive
  ∧ delete_policies [0; 2] (toy_machine false [1; 2; 3; 4]%positive [])
    = delete_policies [2; 0] (toy_machine false [1; 2; 3; 4]%positive []).
Proof.
  assert (Hnd : NoDup [2; 0]) by (by_computation).
  assert (Hrange : Forall (λ i, 0 ≤ i < Z.of_nat (length (policies (toy_machine false [1; 2; 3; 4]%positive [])))) [2; 0]).
  { by_computation. }
  destruct (delete_policies_removes_positions
              (toy_machine false [1; 2; 3; 4]%positive []) [2; 0] Hnd Hrange)
    as (Hrun & _ & _ & Hperm & _).
  split; [exact Hnd|]. split; [exact Hrange|]. split.
  - rewrite Hrun. reflexivity.
  - apply Hperm. by_computation.
Defined.

(** C10.  Whatever the index list and however the call ends,
    [delete_policies] changes nothing but the pool sequence: the store of
    policy objects and of Q-tables, the frontier list, the other fields of
    the coordinator, the world and the record of evaluations are as before;
    the pool after the call is a subsequence of the pool before it; and a
    call that returns has shortened the pool by the number of indices, so
    that a pool that was as long as the frontier is not any more. *)
Theorem delete_policies_frame {World} (m : Machine World) (delete_indx : list Z) :
  let m' := (delete_policies delete_indx m).1 in
  agents m' = agents m
  ∧ tables m' = tables m
  ∧ ccs m' = ccs m
  ∧ self m' = MPMOQLearning.set_policies (policies m') (self m)
  ∧ world m' = world m
  ∧ produced m' = produced m
  ∧ policies m' `sublist_of` policies m
  ∧ match (delete_policies delete_indx m).2 with
    | Ok _ =>
        (length (policies m') + length delete_indx = length (policies m))%nat
        ∧ (delete_indx = [] ∨ length (policies m) ≠ length (ccs m)
           ∨ length (policies m') ≠ length (ccs m'))
    | Raise e => e = IndexError
    end.
Proof.
  unfold delete_policies, pop_sorted_reverse.
  destruct (pop_each (sorted_reverse delete_indx) (policies m)) as [l r] eqn:Hpop.
  simpl. repeat split; try done.
  - by eapply pop_each_sublist.
  - destruct r as [[]|e].
    + apply pop_each_length in Hpop.
      rewrite (Permutation_length (sorted_reverse_Permutation delete_indx)) in Hpop.
      split; [done|]. unfold ccs, policies in *. simpl.
      destruct delete_indx; [by left | right]. simpl in Hpop.
      destruct (decide (length (MPMOQLearning.policies (self m))
                        = length (LinearSupport.ccs (MPMOQLearning.linear_support (self m)))));
        [right; lia | by left].
    + clear -Hpop. revert Hpop. generalize (policies m).
      induction (sorted_reverse delete_indx) as [|i rest IH]; intros l0; simpl; [done|].
      unfold pop at 1. case_decide; [apply IH | by intros [= _ <-]].
Qed.

(** ** [__init__] *)

(** C7.  Construction either fails with the assertion error, and then the
    strategy name is none of "random", "ols", "gpi-ls"; or it yields a
    coordinator, and then the name is one of the three and is stored as
    given.  So an unknown name never gets past construction and no default
    takes its place. *)
Theorem init_checks_weight_selection_algo (reward_dim : nat) (algo : string)
    (use_gpi_policy transfer_q_table log : bool) :
  match __init__ reward_dim algo use_gpi_policy transfer_q_table log with
  | Ok c =>
      algo ∈ ["random"; "ols"; "gpi-ls"]%string
      ∧ MPMOQLearning.weight_selection_algo c = algo
      ∧ MPMOQLearning.policies c = []
  | Raise e =>
      (algo ∉ ["random"; "ols"; "gpi-ls"]%string) ∧ e = AssertionError
  end.
Proof. unfold __init__. case_decide; simpl; auto. Qed.

(** ** [eval] and [_gpi_action] *)

Section Eval.
Context {World : Type} `{Collaborators World}.
Implicit Types (m : Machine World) (obs state w : list Z).

Lemma gpi_action_empty_pool m state w :
  policies m = [] → _gpi_action state w m = Raise ValueError.
Proof. intros Hp. unfold _gpi_action. by rewrite Hp. Qed.

Lemma best_match_empty_pool m obs w :
  MPMOQLearning.use_gpi_policy (self m) = false → policies m = [] →
  ∃ e, eval m obs w = Raise e ∧ (ccs m = [] → e = ValueError).
Proof.
  intros Hgpi Hp. unfold eval. rewrite Hgpi, Hp.
  destruct (comprehension (λ v, np.dot w v) (ccs m)) as [dots|e] eqn:Hdots; simpl.
  - destruct (np.argmax dots) as [best|e] eqn:Hbest; simpl.
    + exists IndexError. split; [done|]. intros Hc. rewrite Hc in Hdots.
      simpl in Hdots. by injection Hdots as <-.
    + exists e. split; [done|]. intros _. destruct dots; simpl in Hbest; congruence.
  - exists e. split; [done|]. intros Hc. by rewrite Hc in Hdots.
Qed.

(** C4.  With an empty pool, [eval] raises and returns no action, in GPI
    mode and in best-match mode alike; in GPI mode, and in best-match
    mode over an empty frontier, the exception is the ValueError of
    [np.stack] or [np.argmax] on nothing. *)
Theorem eval_empty_pool_raises m obs w :
  policies m = [] →
  ∃ e, eval m obs w = Raise e
    ∧ ((MPMOQLearning.use_gpi_policy (self m) = true ∨ ccs m = []) → e = ValueError).
Proof.
  intros Hp. destruct (MPMOQLearning.use_gpi_policy (self m)) eqn:Hgpi.
  - exists ValueError. split; [|done]. unfold eval. rewrite Hgpi.
    by apply gpi_action_empty_pool.
  - destruct (best_match_empty_pool m obs w Hgpi Hp) as (e & He & Hv).
    exists e. split; [done|]. intros [?|?]; [done | auto].
Qed.

Lemma dot_same_length w v : length w = length v → ∃ x, np.dot w v = Ok x.
Proof. intros Hl. unfold np.dot. rewrite decide_True by done. eauto. Qed.

Lemma dot_mismatch w v : length w ≠ length v → np.dot w v = Raise ValueError.
Proof. intros Hl. unfold np.dot. by rewrite decide_False. Qed.

(** C8.  In best-match mode with one policy in the pool and one value
    vector in the frontier, [eval] is that policy's own [eval], for every
    weight vector of the frontier's dimension. *)
Theorem eval_single_policy_delegates m obs w policy v :
  MPMOQLearning.use_gpi_policy (self m) = false →
  policies m = [policy] → ccs m = [v] → length w = length v →
  eval m obs w = MOQLearning_eval policy m obs w.
Proof.
  intros Hgpi Hp Hc Hl. unfold eval. rewrite Hgpi, Hp, Hc. simpl.
  destruct (dot_same_length w v Hl) as [x ->]. done.
Qed.

(** In best-match mode the weight meets the frontier vectors in [np.dot]
    before any policy is consulted. *)
Lemma best_match_dimension_mismatch m obs w :
  MPMOQLearning.use_gpi_policy (self m) = false →
  ccs m ≠ [] → Forall (λ v, length v ≠ length w) (ccs m) →
  eval m obs w = Raise ValueError.
Proof.
  intros Hgpi Hne Hall. unfold eval. rewrite Hgpi.
  destruct (ccs m) as [|v front]; [done|].
  apply Forall_cons in Hall as [Hv _]. simpl.
  rewrite dot_mismatch by done. done.
Qed.

Lemma comprehension_ext {A B} (f g : A → result B) l :
  (∀ x, x ∈ l → f x = g x) → comprehension f l = comprehension g l.
Proof.
  induction l as [|x t IH]; intros Hfg; simpl; [done|].
  rewrite (Hfg x) by left. rewrite IH; [done|]. intros y Hy. apply Hfg. by right.
Qed.

(** [transfer] meets the frontier vectors in [np.dot] as well. *)
Lemma transfer_dimension_mismatch m w new_agent :
  MPMOQLearning.transfer_q_table (self m) = true →
  policies m ≠ [] → ccs m ≠ [] → Forall (λ v, length v ≠ length w) (ccs m) →
  transfer w new_agent m = (m, Raise ValueError).
Proof.
  intros Htr Hp Hc Hall. unfold transfer. rewrite Htr.
  rewrite bool_decide_true by (destruct (policies m); simpl; [done | lia]).
  simpl. unfold bind, reading.
  destruct (ccs m) as [|v front]; [done|].
  apply Forall_cons in Hall as [Hv _]. simpl.
  by rewrite dot_mismatch.
Qed.

(** C9, as the code has it.  In best-match mode over a frontier of vectors
    of [reward_dim] components, a weight of another length makes [eval]
    raise ValueError (that of [np.dot] when the frontier is not empty), and
    so does the transfer step of [train]; nothing is coerced.  In GPI mode
    the coordinator does not look at the weight: it hands it to each
    policy's [scalarized_q_values], and two weights on which the policies
    answer alike select alike. *)
Theorem eval_weight_dimension m obs w :
  (MPMOQLearning.use_gpi_policy (self m) = false →
   Forall (λ v, length v = MPMOQLearning.reward_dim (self m)) (ccs m) →
   length w ≠ MPMOQLearning.reward_dim (self m) →
   eval m obs w = Raise ValueError)
  ∧ (MPMOQLearning.transfer_q_table (self m) = true →
     policies m ≠ [] → ccs m ≠ [] →
     Forall (λ v, length v = MPMOQLearning.reward_dim (self m)) (ccs m) →
     length w ≠ MPMOQLearning.reward_dim (self m) →
     ∀ new_agent, transfer w new_agent m = (m, Raise ValueError))
  ∧ (MPMOQLearning.use_gpi_policy (self m) = true →
     ∀ w', (∀ policy, policy ∈ policies m →
              MOQLearning_scalarized_q_values policy obs w' m
              = MOQLearning_scalarized_q_values policy obs w m) →
           eval m obs w' = eval m obs w).
Proof.
  assert (Hneq : Forall (λ v, length v = MPMOQLearning.reward_dim (self m)) (ccs m) →
                 length w ≠ MPMOQLearning.reward_dim (self m) →
                 Forall (λ v, length v ≠ length w) (ccs m)).
  { intros Hdim Hw. eapply Forall_impl; [exact Hdim|]. simpl. intros v Hv. congruence. }
  split; [|split].
  - intros Hgpi Hdim Hw. destruct (ccs m) as [|v front] eqn:Hc.
    + unfold eval. by rewrite Hgpi, Hc.
    + apply best_match_dimension_mismatch; [done | by rewrite Hc |].
      rewrite Hc. by apply Hneq.
  - intros Htr Hp Hc Hdim Hw new_agent. apply transfer_dimension_mismatch; auto.
  - intros Hgpi w' Hsame. unfold eval. rewrite Hgpi. unfold _gpi_action.
    by rewrite (comprehension_ext _ _ _ Hsame).
Qed.

End Eval.

(** ** The GPI action is the first row-major maximum *)

Lemma list_max_Z_spec l x :
  list_max_Z l = Some x → x ∈ l ∧ ∀ y, y ∈ l → y ≤ x.
Proof.
  destruct l as [|z t]; [done|]. simpl. intros [= <-].
  induction t as [|y t IH]; simpl.
  - split; [by left|]. intros y ->%list_elem_of_singleton. lia.
  - destruct IH as [Hin Hub]. split.
    + destruct (Z.max_spec y (foldr Z.max z t)) as [[_ ->]|[_ ->]].
      * apply elem_of_cons in Hin as [->|Hin]; [by left | by do 2 right].
      * right; by left.
    + intros u Hu.
      assert (u = y ∨ u ∈ z :: t) as [Huy|Hu'].
      { apply elem_of_cons in Hu as [Hu|Hu]; [right; rewrite Hu; by left|].
        apply elem_of_cons in Hu as [Hu|Hu]; [by left | by do 2 right]. }
      * lia.
      * specialize (Hub u Hu'). lia.
Qed.

Lemma elem_of_column rows a x :
  x ∈ omap (.!! a) rows ↔ ∃ p, q_value rows p a = Some x.
Proof.
  rewrite list_elem_of_omap. unfold q_value. split.
  - intros (r & [p Hp]%list_elem_of_lookup & Hr). exists p. by rewrite Hp.
  - intros (p & Hq). destruct (rows !! p) as [r|] eqn:Hp; [|done].
    exists r. split; [by eapply list_elem_of_lookup_2 | done].
Qed.

Section GPI.
Context {World : Type} `{Collaborators World}.
Implicit Types (m : Machine World) (state w : list Z).

Lemma gpi_action_of_rows m state w rows :
  Forall2 (λ policy row, MOQLearning_scalarized_q_values policy state w m = Ok row)
    (policies m) rows →
  _gpi_action state w m =
    rbind (np.stack rows) (λ q_vals,
    rbind (np.argmax (np.data q_vals)) (λ flat,
    rbind (np.unravel_index flat (np.shape q_vals)) (λ '(_, action), Ok action))).
Proof. intros Hrows%comprehension_Ok. unfold _gpi_action. by rewrite Hrows. Qed.

(** C1.  For a non-empty pool whose policies each return a value vector
    over the same [n > 0] actions, [_gpi_action] returns an action [a]
    for which some policy [p] attains the largest scalarized value of the
    whole stack, every position before [(p, a)] in row-major order has a
    strictly smaller value, and [a] maximizes over the actions the
    maximum over the pool. *)
Theorem gpi_action_first_argmax m state w rows n :
  policies m ≠ [] → (0 < n)%nat →
  Forall2 (λ policy row,
             MOQLearning_scalarized_q_values policy state w m = Ok row ∧ length row = n)
    (policies m) rows →
  ∃ p a top,
    _gpi_action state w m = Ok a
    ∧ (p < length (policies m))%nat ∧ (a < n)%nat
    ∧ q_value rows p a = Some top
    ∧ (∀ p' a' x, q_value rows p' a' = Some x → x ≤ top)
    ∧ (∀ p' a' x, q_value rows p' a' = Some x → row_major_before p' a' p a → x < top)
    ∧ pool_max rows a = Some top
    ∧ (∀ a' x, pool_max rows a' = Some x → x ≤ top).
Proof.
  intros Hne Hn Hrows.
  assert (Hlen : length (policies m) = length rows) by by eapply Forall2_length.
  assert (Huni : Forall (λ r, length r = n) rows).
  { eapply Forall2_Forall_r; [exact Hrows|]. apply Forall_true. by intros ? ? [_ ?]. }
  assert (Hrne : rows ≠ []).
  { intros ->. destruct (policies m); [done | simpl in Hlen; lia]. }
  assert (Hcol : ∀ p' a' x, q_value rows p' a' = Some x →
            (a' < n)%nat ∧ concat rows !! (p' * n + a')%nat = Some x).
  { intros p' a' x Hq. unfold q_value in Hq.
    destruct (rows !! p') as [r|] eqn:Hr; [|done]. simpl in Hq.
    assert (a' < n)%nat as Ha'.
    { rewrite Forall_forall in Huni. rewrite <-(Huni r) by by eapply list_elem_of_lookup_2.
      by eapply lookup_lt_Some. }
    split; [done|]. rewrite (concat_lookup_uniform _ n) by done. by rewrite Hr. }
  rewrite (gpi_action_of_rows m state w rows)
    by (eapply Forall2_impl; [exact Hrows | by intros ? ? [? _]]).
  rewrite (stack_uniform rows n) by done. simpl.
  destruct (argmax_spec (concat rows)) as (i & top & -> & Hi & Hub & Hfirst).
  { intros Hnil. apply (f_equal length) in Hnil.
    rewrite (concat_length_uniform _ n) in Hnil by done.
    destruct rows; [done | simpl in Hnil; lia]. }
  simpl. unfold np.unravel_index. simpl.
  assert (Hilt : (i < length rows * n)%nat).
  { rewrite <-(concat_length_uniform _ n) by done. by eapply lookup_lt_Some. }
  rewrite decide_True by done. simpl.
  assert (Hdiv : i = ((i / n) * n + i mod n)%nat).
  { rewrite Nat.mul_comm. apply Nat.div_mod_eq. }
  assert (Hmod : (i mod n < n)%nat) by (apply Nat.mod_upper_bound; lia).
  assert (Hp : (i / n < length rows)%nat) by (apply Nat.Div0.div_lt_upper_bound; lia).
  assert (Hq : q_value rows (i / n) (i mod n) = Some top).
  { unfold q_value. rewrite <-(concat_lookup_uniform _ n) by done. by rewrite <-Hdiv. }
  assert (Hall : ∀ p' a' x, q_value rows p' a' = Some x → x ≤ top).
  { intros p' a' x [_ Hx]%Hcol. by eapply Hub. }
  exists (i / n)%nat, (i mod n)%nat, top.
  split; [done|]. split; [lia|]. split; [done|]. split; [done|].
  split; [done|]. split; [|split].
  - intros p' a' x [Ha' Hx]%Hcol Hbefore. eapply Hfirst; [|exact Hx].
    rewrite Hdiv. destruct Hbefore as [Hlt|[-> Hlt]]; nia.
  - destruct (list_max_Z (omap (.!! (i mod n)%nat) rows)) as [mx|] eqn:Hmx.
    + unfold pool_max. rewrite Hmx. f_equal.
      apply list_max_Z_spec in Hmx as [[p' Hin]%elem_of_column Hmax].
      specialize (Hall _ _ _ Hin).
      assert (top ≤ mx) by (apply Hmax, elem_of_column; eauto). lia.
    + assert (top ∈ omap (.!! (i mod n)%nat) rows) as Hin by (apply elem_of_column; eauto).
      destruct (omap _ rows); [by apply elem_of_nil in Hin | done].
  - intros a' x [[p' Hin]%elem_of_column _]%list_max_Z_spec. by eapply Hall.
Qed.

End GPI.

(** ** Calls that return: what they did to the machine *)

Section Steps.
Context {World : Type} `{Collaborators World}.
Implicit Types (m : Machine World) (w : list Z).

Lemma bind_Ok_inv {A B} (c : M A) (k : A → M B) m m' b :
  bind c k m = (m', Ok b) → ∃ m1 a, c m = (m1, Ok a) ∧ k a m1 = (m', Ok b).
Proof.
  unfold bind. destruct (c m) as [m1 [a|e]]; [eauto | done].
Qed.

Lemma bind_Ok {A B} (c : M A) (k : A → M B) m m1 a :
  c m = (m1, Ok a) → bind c k m = k a m1.
Proof. intros Hc. unfold bind. by rewrite Hc. Qed.

Lemma reading_Ok_inv {A} (f : Machine World → result A) m m' a :
  reading f m = (m', Ok a) → m' = m ∧ f m = Ok a.
Proof. unfold reading. by intros [= <- ->]. Qed.

Lemma modify_inv (f : Machine World → Machine World) m m' r :
  modify f m = (m', r) → m' = f m ∧ r = Ok tt.
Proof. unfold modify. by intros [= <- <-]. Qed.

Lemma agent_at_Ok l m a : agent_at l m = Ok a ↔ agents m !! l = Some a.
Proof. unfold agent_at. destruct (agents m !! l); split; congruence. Qed.

Lemma table_at_Ok l m t : table_at l m = Ok t ↔ tables m !! l = Some t.
Proof. unfold table_at. destruct (tables m !! l); split; congruence. Qed.

Lemma select_weight_Ok_inv rep prev m m' w :
  select_weight rep prev m = (m', Ok w) →
  (∃ wd, m' = set_world wd m)
  ∧ (MPMOQLearning.weight_selection_algo (self m) = "random"%string →
     w = (random_weights (MPMOQLearning.reward_dim (self m)) (world m)).1).
Proof.
  unfold select_weight. case_decide as Hls.
  - destruct (next_weight _ _ _ _ _) as [w' wd]. intros [= <- <-].
    split; [eauto|]. intros Hr. rewrite Hr in Hls. by destruct Hls.
  - case_decide as Hr.
    + destruct (random_weights _ _) as [w' wd]. intros [= <- <-]. split; [eauto | done].
    + destruct prev; [|done]. intros [= <- <-]. split; [|done].
      exists (world m). by destruct m.
Qed.

Lemma MOQLearning_train_Ok_inv agent T reset m m' :
  MOQLearning_train agent T reset m = (m', Ok tt) →
  ∃ a t, agents m !! agent = Some a ∧ tables m !! MOQLearning.q_table a = Some t
    ∧ m' = set_world (learn a t T (world m)).2
             (set_agent agent
                (MOQLearning.set_global_step
                   ((if reset then 0 else MOQLearning.global_step a) + Z.max 0 T) a)
                (set_table (MOQLearning.q_table a) (learn a t T (world m)).1 m)).
Proof.
  unfold MOQLearning_train.
  intros (m1 & a & [-> Ha%agent_at_Ok]%reading_Ok_inv & Hrun)%bind_Ok_inv.
  apply bind_Ok_inv in Hrun as (m2 & t & [-> Ht%table_at_Ok]%reading_Ok_inv & Hrun).
  exists a, t. split; [done|]. split; [done|].
  destruct (learn a t T (world m)) as [t' wd]. by injection Hrun as <-.
Qed.

Lemma add_solution_Ok_inv value w m m' removed :
  add_solution value w m = (m', Ok removed) →
  ∃ wd front,
    pop_sorted_reverse removed (ccs m ++ [value]) = (front, Ok tt)
    ∧ m' = set_world wd (set_self (MPMOQLearning.set_ccs front) m).
Proof.
  unfold add_solution. destruct (obsolete_indices _ _ _) as [removed' wd].
  destruct (pop_sorted_reverse removed' _) as [front [[]|e]] eqn:Hpop; [|done].
  intros [= <- <-]. eauto.
Qed.

Lemma delete_policies_Ok_inv idxs m m' :
  delete_policies idxs m = (m', Ok tt) →
  ∃ pool,
    pop_sorted_reverse idxs (policies m) = (pool, Ok tt)
    ∧ m' = set_self (MPMOQLearning.set_policies pool) m.
Proof.
  unfold delete_policies.
  destruct (pop_sorted_reverse idxs _) as [pool r] eqn:Hpop. intros [= <- ->]. eauto.
Qed.

Lemma set_world_same m : set_world (world m) m = m.
Proof. by destruct m. Qed.

Lemma gpi_front_Ok_inv rep ews : ∀ m m' front,
  gpi_front rep ews m = (m', Ok front) → ∃ wd, m' = set_world wd m.
Proof.
  induction ews as [|w ews IH]; intros m m' front; simpl.
  - intros [= <- _]. exists (world m). by rewrite set_world_same.
  - intros (m1 & v & Hstep & Hrun)%bind_Ok_inv.
    apply bind_Ok_inv in Hrun as (m2 & vs & Hrest & [= <- _]).
    destruct (policy_evaluation_mo _ _ _ _) as [r wd]. injection Hstep as <- _.
    apply IH in Hrest as [wd' ->]. eauto.
Qed.

Lemma log_iteration_Ok_inv rep ews m m' :
  log_iteration rep ews m = (m', Ok tt) → ∃ wd, m' = set_world wd m.
Proof.
  unfold log_iteration. destruct (MPMOQLearning.log (self m)).
  - intros (m1 & front & Hfront & [-> _]%modify_inv)%bind_Ok_inv.
    destruct (MPMOQLearning.use_gpi_policy (self m)).
    + apply gpi_front_Ok_inv in Hfront as [wd ->]. eauto.
    + apply reading_Ok_inv in Hfront as [-> _]. eauto.
  - intros [= <-]. exists (world m). by rewrite set_world_same.
Qed.

(** [transfer] touches the store only: the new policy's table reference
    and a new table. *)
Lemma transfer_Ok_inv w new_agent m m' :
  transfer w new_agent m = (m', Ok tt) →
  self m' = self m ∧ world m' = world m ∧ produced m' = produced m
  ∧ (∀ l, l ≠ new_agent → agents m' !! l = agents m !! l)
  ∧ (∀ a, agents m !! new_agent = Some a →
       ∃ lt, agents m' !! new_agent = Some (MOQLearning.set_q_table lt a))
  ∧ (MPMOQLearning.transfer_q_table (self m) = false → m' = m).
Proof.
  unfold transfer.
  destruct (MPMOQLearning.transfer_q_table (self m)); simpl;
    [case_bool_decide; simpl|].
  - intros (m1 & i & [-> _]%reading_Ok_inv & Hrun)%bind_Ok_inv.
    apply bind_Ok_inv in Hrun as (m1 & src & [-> _]%reading_Ok_inv & Hrun).
    apply bind_Ok_inv in Hrun as (m1 & a & [-> _]%reading_Ok_inv & Hrun).
    apply bind_Ok_inv in Hrun as (m1 & copy & Hcopy & Hrun).
    apply bind_Ok_inv in Hrun as (m2 & new & [-> Hnew%agent_at_Ok]%reading_Ok_inv & Hrun).
    apply modify_inv in Hrun as [-> _].
    unfold deepcopy in Hcopy.
    apply bind_Ok_inv in Hcopy as (m2 & t & [-> _]%reading_Ok_inv & [= <- <-]).
    simpl in *. repeat split; try done.
    + intros l Hl. by rewrite lookup_insert_ne.
    + intros a' Ha'. rewrite lookup_insert_eq. rewrite Ha' in Hnew. injection Hnew as <-. eauto.
  - intros [= <-]. repeat split; try done.
    intros a Ha. exists (MOQLearning.q_table a). rewrite Ha. by destruct a.
  - intros [= <-]. repeat split; try done.
    intros a Ha. exists (MOQLearning.q_table a). rewrite Ha. by destruct a.
Qed.

End Steps.

(** ** One iteration of the loop *)

Section Iteration.
Context {World : Type} `{Collaborators World}.
Implicit Types (m : Machine World) (w : list Z).

(** What an iteration that returns has done. *)
Lemma train_iteration_Ok_inv T rep ews iter prev m m' r :
  train_iteration T rep ews iter prev m = (m', Ok r) →
  ∃ w new_agent value removed_inds a,
    r = Some w
    ∧ (MPMOQLearning.weight_selection_algo (self m) = "random"%string →
       w = (random_weights (MPMOQLearning.reward_dim (self m)) (world m)).1)
    ∧ agents m !! new_agent = None
    ∧ pop_sorted_reverse removed_inds (policies m ++ [new_agent]) = (policies m', Ok tt)
    ∧ pop_sorted_reverse removed_inds (ccs m ++ [value]) = (ccs m', Ok tt)
    ∧ produced m' = produced m ++ [(new_agent, value)]
    ∧ self m' = MPMOQLearning.set_policies (policies m')
                  (MPMOQLearning.set_ccs (ccs m')
                     (MPMOQLearning.set_global_step
                        (MPMOQLearning.global_step (self m) + Z.max 0 T) (self m)))
    ∧ agents m' !! new_agent = Some a
    ∧ MOQLearning.id a = iter ∧ MOQLearning.weights a = w
    ∧ (∀ l, l ≠ new_agent → agents m' !! l = agents m !! l).
Proof.
  unfold train_iteration.
  intros (m1 & w & [[wd1 ->] Hw]%select_weight_Ok_inv & Hrun)%bind_Ok_inv.
  apply bind_Ok_inv in Hrun as (m2 & new_agent & Hnew & Hrun).
  unfold MOQLearning_new in Hnew. injection Hnew as <- <-.
  simpl in Hrun.
  assert (Hnone : agents m !! fresh (dom (agents m)) = None).
  { apply not_elem_of_dom, is_fresh. }
  remember (fresh (dom (agents m))) as new_agent eqn:Hfresh. clear Hfresh.
  apply bind_Ok_inv in Hrun as (m3 & [] & Htransfer & Hrun).
  apply transfer_Ok_inv in Htransfer as (Hself3 & Hworld3 & Hprod3 & Hothers3 & Hnew3 & _).
  destruct (Hnew3 _ (lookup_insert_eq _ _ _)) as [lt Ha3]. clear Hnew3.
  apply bind_Ok_inv in Hrun as (m4 & [] & [-> _]%modify_inv & Hrun).
  apply bind_Ok_inv in Hrun as (m5 & g & [-> [= <-]]%reading_Ok_inv & Hrun).
  apply bind_Ok_inv in Hrun as (m5 & a & [-> Ha%agent_at_Ok]%reading_Ok_inv & Hrun).
  apply bind_Ok_inv in Hrun as (m5 & [] & [-> _]%modify_inv & Hrun).
  apply bind_Ok_inv in Hrun as (m6 & [] & Htrain & Hrun).
  apply MOQLearning_train_Ok_inv in Htrain as (a6 & t6 & Ha6 & Ht6 & ->).
  apply bind_Ok_inv in Hrun as (m7 & a' & [-> Ha'%agent_at_Ok]%reading_Ok_inv & Hrun).
  apply bind_Ok_inv in Hrun as (m7 & [] & [-> _]%modify_inv & Hrun).
  apply bind_Ok_inv in Hrun as (m8 & value & Heval & Hrun).
  destruct (policy_evaluation_mo _ _ _ _) as [rv wd8] in Heval. injection Heval as <- ->.
  apply bind_Ok_inv in Hrun as (m9 & [] & [-> _]%modify_inv & Hrun).
  apply bind_Ok_inv in Hrun as (m10 & removed & (wd10 & front & Hfront & ->)%add_solution_Ok_inv & Hrun).
  apply bind_Ok_inv in Hrun as (m11 & [] & (pool & Hpool & ->)%delete_policies_Ok_inv & Hrun).
  apply bind_Ok_inv in Hrun as (m12 & [] & [wd12 ->]%log_iteration_Ok_inv & [= <- <-]).
  record_simpl.
  rewrite lookup_insert_eq in Ha6. injection Ha6 as <-.
  rewrite lookup_insert_eq in Ha'. injection Ha' as <-.
  rewrite Ha3 in Ha. injection Ha as <-.
  unfold policies, ccs in *.
  destruct m3 as [self3 agents3 tables3 world3 produced3]. record_simpl. subst.
  record_simpl.
  eexists w, new_agent, value, removed, _.
  split; [done|]. split; [done|]. split; [done|]. split; [exact Hpool|].
  split; [exact Hfront|]. split; [done|]. split; [done|].
  split; [apply lookup_insert_eq|]. split; [done|]. split; [done|].
  intros l Hl. rewrite !lookup_insert_ne by done. rewrite Hothers3 by done.
  by rewrite lookup_insert_ne.
Qed.

Lemma best_match_Ok w (front : list (list Z)) :
  front ≠ [] → Forall (λ v, length v = length w) front →
  ∃ i v top,
    rbind (comprehension (λ v, np.dot w v) front) np.argmax = Ok i
    ∧ front !! i = Some v ∧ np.dot w v = Ok top
    ∧ (∀ j v' x, front !! j = Some v' → np.dot w v' = Ok x → x ≤ top)
    ∧ (∀ j v' x, (j < i)%nat → front !! j = Some v' → np.dot w v' = Ok x → x < top).
Proof.
  intros Hne Hdim.
  assert (∃ dots, comprehension (λ v, np.dot w v) front = Ok dots) as [dots Hdots].
  { clear Hne. induction Hdim as [|v front Hv _ [dots IH]]; simpl; [eauto|].
    destruct (dot_same_length w v (eq_sym Hv)) as [x ->]. simpl. rewrite IH. simpl. eauto. }
  rewrite Hdots. simpl.
  pose proof Hdots as Hall%comprehension_Ok.
  destruct (argmax_spec dots) as (i & top & Hi & Htop & Hub & Hfirst).
  { intros ->. apply Forall2_nil_inv_r in Hall. done. }
  destruct (Forall2_lookup_r _ _ _ _ _ Hall Htop) as (v & Hv & Hdot).
  exists i, v, top. repeat split; try done.
  - intros j v' x Hj Hx.
    destruct (Forall2_lookup_l _ _ _ _ _ Hall Hj) as (x' & Hx' & Hdot').
    rewrite Hx in Hdot'. injection Hdot' as <-. by eapply Hub.
  - intros j v' x Hlt Hj Hx.
    destruct (Forall2_lookup_l _ _ _ _ _ Hall Hj) as (x' & Hx' & Hdot').
    rewrite Hx in Hdot'. injection Hdot' as <-. by eapply Hfirst.
Qed.

(** C5.  With transfer enabled and a non-empty pool aligned in length
    with a frontier of vectors of the weight's dimension, [transfer]
    returns; the source is the pool entry at the position of the first
    frontier vector that maximizes [np.dot(w, v)]; the new policy's
    Q-table is a dictionary that was not in the store before, with the
    contents of the source's; the source's table is as before; and
    afterwards a write to either table, in particular training either
    policy, leaves the other table unchanged. *)
Theorem transfer_copies_best_match_table m w new_agent new :
  MPMOQLearning.transfer_q_table (self m) = true →
  policies m ≠ [] →
  length (policies m) = length (ccs m) →
  Forall (λ v, length v = length w) (ccs m) →
  pool_allocated m →
  agents m !! new_agent = Some new →
  ∃ i source a t v top m' copy,
    transfer w new_agent m = (m', Ok tt)
    ∧ policies m !! i = Some source ∧ agents m !! source = Some a
    ∧ tables m !! MOQLearning.q_table a = Some t
    ∧ ccs m !! i = Some v ∧ np.dot w v = Ok top
    ∧ (∀ j v' x, ccs m !! j = Some v' → np.dot w v' = Ok x → x ≤ top)
    ∧ agents m' !! new_agent = Some (MOQLearning.set_q_table copy new)
    ∧ tables m !! copy = None
    ∧ copy ≠ MOQLearning.q_table a
    ∧ tables m' !! copy = Some t
    ∧ tables m' !! MOQLearning.q_table a = Some t
    ∧ (∀ t', tables (set_table copy t' m') !! MOQLearning.q_table a = Some t)
    ∧ (∀ t', tables (set_table (MOQLearning.q_table a) t' m') !! copy = Some t)
    ∧ (∀ T reset m'', MOQLearning_train new_agent T reset m' = (m'', Ok tt) →
         tables m'' !! MOQLearning.q_table a = Some t)
    ∧ (∀ T reset m'', source ≠ new_agent →
         MOQLearning_train source T reset m' = (m'', Ok tt) →
         tables m'' !! copy = Some t).
Proof.
  intros Htr Hne Hlen Hdim Halloc Hnew.
  destruct (best_match_Ok w (ccs m)) as (i & v & top & Hbest & Hv & Hdot & Hub & _); [|done|].
  { intros Hc. rewrite Hc in Hlen. by destruct (policies m). }
  destruct (lookup_lt_is_Some_2 (policies m) i) as [source Hsource].
  { rewrite Hlen. by eapply lookup_lt_Some. }
  destruct (Halloc source) as (a & Ha & t & Ht); [by eapply list_elem_of_lookup_2|].
  set (copy := fresh (dom (tables m))).
  assert (Hfresh : tables m !! copy = None) by apply not_elem_of_dom, is_fresh.
  assert (Hne' : copy ≠ MOQLearning.q_table a) by (intros Heq; rewrite Heq in Hfresh; congruence).
  exists i, source, a, t, v, top,
    (set_agent new_agent (MOQLearning.set_q_table copy new) (set_table copy t m)), copy.
  split.
  { unfold transfer. rewrite Htr. rewrite bool_decide_true by (destruct (policies m); simpl; [done|lia]).
    simpl.
    erewrite bind_Ok by (unfold reading; by rewrite Hbest).
    erewrite bind_Ok by (unfold reading, getitem; by rewrite Hsource).
    erewrite bind_Ok by (unfold reading; by rewrite (proj2 (agent_at_Ok _ _ _) Ha)).
    erewrite bind_Ok.
    2:{ unfold deepcopy. erewrite bind_Ok by (unfold reading; by rewrite (proj2 (table_at_Ok _ _ _) Ht)).
        reflexivity. }
    erewrite bind_Ok by (unfold reading, agent_at; simpl; by rewrite Hnew).
    done. }
  simpl. repeat split; try done.
  - apply lookup_insert_eq.
  - apply lookup_insert_eq.
  - by rewrite lookup_insert_ne.
  - intros t'. rewrite !lookup_insert_ne by done. done.
  - intros t'. rewrite lookup_insert_ne by done. apply lookup_insert_eq.
  - intros T reset m'' (a1 & t1 & Ha1 & Ht1 & ->)%MOQLearning_train_Ok_inv.
    simpl in *. rewrite lookup_insert_eq in Ha1. injection Ha1 as <-. simpl.
    rewrite !lookup_insert_ne by done. done.
  - intros T reset m'' Hsn (a1 & t1 & Ha1 & Ht1 & ->)%MOQLearning_train_Ok_inv.
    simpl in *. rewrite lookup_insert_ne in Ha1 by done.
    rewrite Ha in Ha1. injection Ha1 as <-. simpl.
    rewrite lookup_insert_ne by done. apply lookup_insert_eq.
Qed.

End Iteration.

(** ** The loop *)

Section Loop.
Context {World : Type} `{Collaborators World}.
Implicit Types (m : Machine World) (w : list Z).

Lemma train_loop_app T rep ews iters1 : ∀ iters2 prev m,
  train_loop T rep ews (iters1 ++ iters2) prev m
  = bind (train_loop T rep ews iters1 prev) (train_loop T rep ews iters2) m.
Proof.
  induction iters1 as [|iter iters1 IH]; intros iters2 prev m; simpl; [done|].
  unfold bind.
  destruct (train_iteration T rep ews iter prev m) as [m1 [r|e]]; [|done].
  by rewrite IH.
Qed.

Lemma train_loop_invariant (I : nat → Machine World → Prop) T rep ews :
  (∀ k iter prev m m' r,
     I k m → train_iteration T rep ews iter prev m = (m', Ok r) → I (S k) m') →
  ∀ iters k prev m m' r,
    I k m → train_loop T rep ews iters prev m = (m', Ok r) →
    I (k + length iters)%nat m'.
Proof.
  intros Hstep. induction iters as [|iter iters IH]; intros k prev m m' r HI; simpl.
  - intros [= <- _]. by rewrite Nat.add_0_r.
  - intros (m1 & r1 & Hiter & Hrest)%bind_Ok_inv.
    replace (k + S (length iters))%nat with (S k + length iters)%nat by lia.
    eapply IH; [|exact Hrest]. by eapply Hstep.
Qed.

Lemma range_split (k : nat) n :
  Z.of_nat k ≤ n →
  range n = range (Z.of_nat k) ++ (Z.of_nat <$> seq k (Z.to_nat n - k)).
Proof.
  intros Hk. unfold range. rewrite <-fmap_app, Nat2Z.id. f_equal.
  replace (Z.to_nat n) with (k + (Z.to_nat n - k))%nat at 1 by lia.
  apply seq_app.
Qed.

Lemma train_Ok_inv n T nfront rep m m' :
  train n T nfront rep m = (m', Ok tt) →
  ∃ m1 r wd,
    train_loop T rep
      (equally_spaced_weights (MPMOQLearning.reward_dim (self m)) nfront)
      (range n) None m = (m1, Ok r)
    ∧ m' = set_world wd m1.
Proof.
  unfold train.
  intros (m0 & ews & [-> [= <-]]%reading_Ok_inv & Hrun)%bind_Ok_inv.
  apply bind_Ok_inv in Hrun as (m1 & r & Hloop & Hclose).
  exists m1, r. destruct (MPMOQLearning.log (self m1)).
  - injection Hclose as <-. eauto.
  - injection Hclose as <-. exists (world m1). by rewrite set_world_same.
Qed.

Lemma after_iterations_eq k T nfront rep m :
  after_iterations k T nfront rep m
  = train_loop T rep
      (equally_spaced_weights (MPMOQLearning.reward_dim (self m)) nfront)
      (range (Z.of_nat k)) None m.
Proof. done. Qed.

(** A run that returns went through the state at the end of each of its
    iterations. *)
Lemma train_passes_through n T nfront rep m m' (k : nat) :
  train n T nfront rep m = (m', Ok tt) → Z.of_nat k ≤ n →
  ∃ m_k r, after_iterations k T nfront rep m = (m_k, Ok r).
Proof.
  intros (m1 & r & wd & Hloop & _)%train_Ok_inv Hk.
  rewrite (range_split k n Hk), train_loop_app in Hloop.
  apply bind_Ok_inv in Hloop as (m_k & r_k & Hk' & _).
  rewrite after_iterations_eq. eauto.
Qed.

Lemma aligned_iteration T rep ews iter prev m m' r :
  aligned m → train_iteration T rep ews iter prev m = (m', Ok r) → aligned m'.
Proof.
  intros [Hlen Hsub] (w & new_agent & value & removed & a & _ & _ & _ & Hpool & Hfront
                      & Hprod & _)%train_iteration_Ok_inv.
  unfold pop_sorted_reverse in *.
  destruct (pop_each_zip (sorted_reverse removed) (policies m ++ [new_agent])
              (ccs m ++ [value])) as (_ & Hlen' & Hzip).
  { rewrite !length_app. simpl. lia. }
  rewrite Hpool, Hfront in Hlen', Hzip. simpl in *.
  split; [done|]. rewrite Hzip, Hprod.
  etrans; [eapply pop_each_sublist, surjective_pairing|].
  rewrite zip_with_app by done. simpl. by apply sublist_app.
Qed.

Lemma aligned_loop T rep ews iters prev m m' r :
  aligned m → train_loop T rep ews iters prev m = (m', Ok r) → aligned m'.
Proof.
  intros Hal Hrun.
  exact (train_loop_invariant (λ _, aligned) T rep ews
           (λ _ iter prev m m' r, aligned_iteration T rep ews iter prev m m' r)
           iters 0%nat prev m m' r Hal Hrun).
Qed.

Lemma aligned_lookup m i policy v :
  aligned m → policies m !! i = Some policy → ccs m !! i = Some v →
  (policy, v) ∈ produced m.
Proof.
  intros [_ Hsub] Hp Hv. eapply elem_of_sublist; [|exact Hsub].
  eapply elem_of_lookup_zip_with_2; eauto.
Qed.

Lemma aligned_set_world wd m : aligned m → aligned (set_world wd m).
Proof. done. Qed.

(** C2.  From an aligned state, the state at the end of every iteration
    of [train] is aligned: the pool and the frontier have the same
    length, and at each position the pool holds the policy object whose
    evaluation (line 218) produced the frontier vector at that position,
    in the order of the evaluations.  A run of [train] that returns has
    passed through the end of each of its iterations and ends aligned. *)
Theorem train_keeps_pool_aligned m T nfront rep :
  aligned m →
  (∀ k m_k r, after_iterations k T nfront rep m = (m_k, Ok r) →
     length (policies m_k) = length (ccs m_k)
     ∧ zip (policies m_k) (ccs m_k) `sublist_of` produced m_k
     ∧ ∀ i policy v, policies m_k !! i = Some policy → ccs m_k !! i = Some v →
                     (policy, v) ∈ produced m_k)
  ∧ (∀ n m', train n T nfront rep m = (m', Ok tt) →
       aligned m'
       ∧ ∀ k : nat, Z.of_nat k ≤ n →
           ∃ m_k r, after_iterations k T nfront rep m = (m_k, Ok r) ∧ aligned m_k).
Proof.
  intros Hal.
  assert (Hafter : ∀ k m_k r, after_iterations k T nfront rep m = (m_k, Ok r) → aligned m_k).
  { intros k m_k r Hrun. rewrite after_iterations_eq in Hrun. by eapply aligned_loop. }
  split.
  - intros k m_k r Hrun%Hafter. destruct (Hrun) as [Hl Hs].
    split; [done|]. split; [done|]. intros i policy v. by apply aligned_lookup.
  - intros n m' Hrun. split.
    + apply train_Ok_inv in Hrun as (m1 & r & wd & Hloop & ->).
      apply aligned_set_world. by eapply aligned_loop.
    + intros k Hk. destruct (train_passes_through _ _ _ _ _ _ k Hrun Hk) as (m_k & r & Hk').
      exists m_k, r. split; [done|]. by eapply Hafter.
Qed.

End Loop.

(** ** The three-iteration scenario *)

Section Scenario.
Context {World : Type} `{Collaborators World}.
Implicit Types (m : Machine World) (w : list Z).

Lemma scenario_iteration T rep ews iter prev k m m' r :
  (∀ wd, weight_vector 2 (random_weights 2 wd).1) → 0 ≤ T →
  scenario_inv T k m → train_iteration T rep ews iter prev m = (m', Ok r) →
  scenario_inv T (S k) m'.
Proof.
  intros Hrandom HT (Hlen & Hstep & Halgo & Hdim & Hweights)
    (w & new_agent & value & removed & a & _ & Hw & Hnone & Hpool & _ & _ & Hself
     & Ha & _ & Haw & Hothers)%train_iteration_Ok_inv.
  specialize (Hw Halgo). rewrite Hdim in Hw.
  assert (Hsub : policies m' `sublist_of` policies m ++ [new_agent]).
  { eapply pop_each_sublist. exact Hpool. }
  assert (Hgs : MPMOQLearning.global_step (self m')
                = MPMOQLearning.global_step (self m) + Z.max 0 T) by by rewrite Hself.
  assert (Halgo' : MPMOQLearning.weight_selection_algo (self m')
                   = MPMOQLearning.weight_selection_algo (self m)) by by rewrite Hself.
  assert (Hdim' : MPMOQLearning.reward_dim (self m') = MPMOQLearning.reward_dim (self m))
    by by rewrite Hself.
  split; [|split; [|split; [|split]]].
  - apply sublist_length in Hsub. rewrite length_app in Hsub. simpl in Hsub. lia.
  - lia.
  - congruence.
  - congruence.
  - intros l Hl. eapply elem_of_sublist in Hl; [|exact Hsub].
    apply elem_of_app in Hl as [Hl|Hl%list_elem_of_singleton]; [|subst l].
    + destruct (Hweights l Hl) as (al & Hal & Hgood). exists al. split; [|done].
      rewrite Hothers; [done|]. intros ->. congruence.
    + exists a. split; [done|]. rewrite Haw, Hw. apply Hrandom.
Qed.

(** C6.  Two objectives, strategy "random", no transfer, three
    iterations of [T >= 0] steps each, from a newly constructed
    coordinator, with random weights that are weight vectors for two
    objectives: when [train] returns, the pool holds at most three
    policies, the coordinator's step counter is [3 * T], and every policy
    of the pool stores a weight with two non-negative components. *)
Theorem train_random_three_iterations use_gpi log (world0 : World) T nfront rep c m' :
  (∀ wd, weight_vector 2 (random_weights 2 wd).1) →
  0 ≤ T →
  __init__ 2 "random" use_gpi false log = Ok c →
  train 3 T nfront rep (mkMachine c ∅ ∅ world0 []) = (m', Ok tt) →
  (length (policies m') ≤ 3)%nat
  ∧ MPMOQLearning.global_step (self m') = 3 * T
  ∧ ∀ l, l ∈ policies m' →
      ∃ a, agents m' !! l = Some a ∧ weight_vector 2 (MOQLearning.weights a).
Proof.
  intros Hrandom HT Hinit (m1 & r & wd & Hloop & ->)%train_Ok_inv.
  unfold __init__ in Hinit. rewrite decide_True in Hinit by by_computation.
  injection Hinit as <-.
  match type of Hloop with train_loop _ _ ?ews _ _ ?m0 = _ =>
    assert (Hinit : scenario_inv T 0 m0)
      by (split; [simpl; lia|]; split; [done|]; split; [done|]; split; [done|];
          by intros l ?%elem_of_nil);
    pose proof (train_loop_invariant (scenario_inv T) T rep ews
                  (λ k iter prev m m' r,
                     scenario_iteration T rep ews iter prev k m m' r Hrandom HT)
                  (range 3) 0%nat None m0 m1 r Hinit Hloop) as Hinv
  end.
  destruct Hinv as (Hlen & Hstep & _ & _ & Hweights).
  split; [done|]. split; [done|]. done.
Qed.

End Scenario.

(** ** The statements on concrete machines *)

Example sorted_reverse_ex : sorted_reverse [0; 2; 1; 5] = [5; 2; 1; 0].
Proof. reflexivity. Qed.

Example pop_sorted_reverse_ex :
  pop_sorted_reverse [0; 2] [10; 11; 12; 13] = ([11; 13], Ok tt).
Proof. reflexivity. Qed.

(** A pop that raises leaves the pops done before it in place. *)
Example pop_sorted_reverse_partial :
  pop_sorted_reverse [0; -7] [10; 11; 12] = ([11; 12], Raise IndexError).
Proof. reflexivity. Qed.

Lemma gpi_action_first_argmax_witness :
  policies (two_policy_machine true) ≠ []
  ∧ (0 < 2)%nat
  ∧ Forall2 (λ policy row,
               @MOQLearning_scalarized_q_values nat toy policy [0] [1; 1]
                 (two_policy_machine true) = Ok row
               ∧ length row = 2%nat)
      (policies (two_policy_machine true)) [[10; 8]; [10; 12]]
  ∧ @_gpi_action nat toy [0] [1; 1] (two_policy_machine true) = Ok 1%nat
  ∧ ∃ p a top,
      @_gpi_action nat toy [0] [1; 1] (two_policy_machine true) = Ok a
      ∧ q_value [[10; 8]; [10; 12]] p a = Some top
      ∧ pool_max [[10; 8]; [10; 12]] a = Some top.
Proof.
  assert (H1 : policies (two_policy_machine true) ≠ []) by done.
  assert (H2 : (0 < 2)%nat) by lia.
  assert (H3 : Forall2 (λ policy row,
               @MOQLearning_scalarized_q_values nat toy policy [0] [1; 1]
                 (two_policy_machine true) = Ok row
               ∧ length row = 2%nat)
      (policies (two_policy_machine true)) [[10; 8]; [10; 12]]).
  { repeat constructor. }
  destruct (@gpi_action_first_argmax nat toy (two_policy_machine true) [0] [1; 1]
              [[10; 8]; [10; 12]] 2%nat H1 H2 H3)
    as (p & a & top & Hact & _ & _ & Hq & _ & _ & Hmax & _).
  split; [exact H1|]. split; [exact H2|]. split; [exact H3|].
  split; [vm_compute; reflexivity|]. exists p, a, top. auto.
Defined.

Lemma train_keeps_pool_aligned_witness :
  aligned (fresh_machine true false true)
  ∧ ∃ m', @train nat toy 3 5 2 1 (fresh_machine true false true) = (m', Ok tt)
      ∧ policies m' = [2; 3]%positive
      ∧ ccs m' = [[1; 1]; [2; 1]]
      ∧ aligned m'.
Proof.
  assert (H0 : aligned (fresh_machine true false true)).
  { split; [done|]. apply sublist_nil. }
  split; [exact H0|].
  exists (@train nat toy 3 5 2 1 (fresh_machine true false true)).1.
  assert (Hrun : @train nat toy 3 5 2 1 (fresh_machine true false true)
                 = ((@train nat toy 3 5 2 1 (fresh_machine true false true)).1, Ok tt)).
  { vm_compute. reflexivity. }
  split; [exact Hrun|]. split; [vm_compute; reflexivity|]. split; [vm_compute; reflexivity|].
  destruct (@train_keeps_pool_aligned nat toy (fresh_machine true false true) 5 2 1 H0)
    as [_ Htrain].
  exact (proj1 (Htrain 3 _ Hrun)).
Defined.

Lemma eval_empty_pool_raises_witness :
  policies (toy_machine true [] []) = []
  ∧ ∃ e, @eval nat toy (toy_machine true [] []) [0] [1; 1] = Raise e
      ∧ ((MPMOQLearning.use_gpi_policy (self (toy_machine true [] [])) = true
          ∨ ccs (toy_machine true [] []) = []) → e = ValueError).
Proof.
  split; [reflexivity|].
  exact (@eval_empty_pool_raises nat toy (toy_machine true [] []) [0] [1; 1] eq_refl).
Defined.

Lemma transfer_copies_best_match_table_witness :
  MPMOQLearning.transfer_q_table (self (two_policy_machine false)) = true
  ∧ policies (two_policy_machine false) ≠ []
  ∧ length (policies (two_policy_machine false)) = length (ccs (two_policy_machine false))
  ∧ Forall (λ v, length v = length [1; 3]) (ccs (two_policy_machine false))
  ∧ pool_allocated (two_policy_machine false)
  ∧ agents (two_policy_machine false) !! 3%positive = Some (MOQLearning.mk 2 [1; 3] 30%positive 0)
  ∧ ∃ m' copy,
      transfer [1; 3] 3%positive (two_policy_machine false) = (m', Ok tt)
      ∧ agents m' !! 3%positive = Some (MOQLearning.mk 2 [1; 3] copy 0)
      ∧ copy ≠ 20%positive
      ∧ tables m' !! copy = Some {[ [0] := [[0; 10]; [3; 9]] ]}
      ∧ tables m' !! 20%positive = Some {[ [0] := [[0; 10]; [3; 9]] ]}.
Proof.
  assert (H1 : MPMOQLearning.transfer_q_table (self (two_policy_machine false)) = true) by done.
  assert (H2 : policies (two_policy_machine false) ≠ []) by done.
  assert (H3 : length (policies (two_policy_machine false))
               = length (ccs (two_policy_machine false))) by done.
  assert (H4 : Forall (λ v, length v = length [1; 3]) (ccs (two_policy_machine false))).
  { repeat constructor. }
  assert (H5 : pool_allocated (two_policy_machine false)).
  { intros l Hl. apply elem_of_cons in Hl as [->|Hl]; [|apply list_elem_of_singleton in Hl as ->].
    - eexists. split; [reflexivity|]. eexists. reflexivity.
    - eexists. split; [reflexivity|]. eexists. reflexivity. }
  assert (H6 : agents (two_policy_machine false) !! 3%positive
               = Some (MOQLearning.mk 2 [1; 3] 30%positive 0)) by reflexivity.
  destruct (@transfer_copies_best_match_table nat toy (two_policy_machine false) [1; 3]
              3%positive _ H1 H2 H3 H4 H5 H6)
    as (i & source & a & t & v & top & m' & copy & Hrun & Hi & Ha & Ht & Hv & Hdot & Hbest
        & Hnew & Hfresh & Hne & Hcopy & Hsrc & _).
  assert (Hi1 : i = 1%nat).
  { destruct i as [|[|i]]; [|done|].
    - exfalso. injection Hv as <-. injection Hdot as <-.
      specialize (Hbest 1%nat [0; 10] 30 eq_refl eq_refl). lia.
    - by destruct i. }
  subst i. injection Hi as <-. injection Ha as <-. injection Ht as <-.
  repeat (split; [assumption|]).
  exists m', copy. auto.
Defined.

Lemma toy_random_weights (wd : nat) : weight_vector 2 (@random_weights nat toy 2 wd).1.
Proof. split; [reflexivity|]. repeat constructor; lia. Qed.

Lemma train_random_three_iterations_witness :
  (∀ wd, weight_vector 2 (@random_weights nat toy 2 wd).1)
  ∧ 0 ≤ 5
  ∧ __init__ 2 "random" true false true = Ok (self (fresh_machine true false true))
  ∧ ∃ m', @train nat toy 3 5 2 1 (fresh_machine true false true) = (m', Ok tt)
      ∧ (length (policies m') ≤ 3)%nat
      ∧ MPMOQLearning.global_step (self m') = 3 * 5
      ∧ ∀ l, l ∈ policies m' →
          ∃ a, agents m' !! l = Some a ∧ weight_vector 2 (MOQLearning.weights a).
Proof.
  assert (H2 : 0 ≤ 5) by lia.
  assert (H3 : __init__ 2 "random" true false true = Ok (self (fresh_machine true false true)))
    by reflexivity.
  assert (Hrun : @train nat toy 3 5 2 1 (fresh_machine true false true)
                 = ((@train nat toy 3 5 2 1 (fresh_machine true false true)).1, Ok tt)).
  { vm_compute. reflexivity. }
  split; [exact toy_random_weights|]. split; [exact H2|]. split; [exact H3|].
  eexists. split; [exact Hrun|].
  exact (@train_random_three_iterations nat toy true true 0%nat 5 2 1 _ _
           toy_random_weights H2 H3 Hrun).
Defined.

Lemma eval_single_policy_delegates_witness :
  MPMOQLearning.use_gpi_policy (self (toy_machine false [1]%positive [[1; 0]])) = false
  ∧ policies (toy_machine false [1]%positive [[1; 0]]) = [1%positive]
  ∧ ccs (toy_machine false [1]%positive [[1; 0]]) = [[1; 0]]
  ∧ length [3; 4] = length [1; 0]
  ∧ @eval nat toy (toy_machine false [1]%positive [[1; 0]]) [0] [3; 4]
    = @MOQLearning_eval nat toy 1%positive (toy_machine false [1]%positive [[1; 0]]) [0] [3; 4].
Proof.
  repeat (split; [reflexivity|]).
  exact (@eval_single_policy_delegates nat toy (toy_machine false [1]%positive [[1; 0]])
           [0] [3; 4] 1%positive [1; 0] eq_refl eq_refl eq_refl eq_refl).
Defined.

Lemma eval_weight_dimension_witness :
  MPMOQLearning.use_gpi_policy (self (toy_machine false [1]%positive [[1; 0]])) = false
  ∧ Forall (λ v, length v = MPMOQLearning.reward_dim (self (toy_machine false [1]%positive [[1; 0]])))
      (ccs (toy_machine false [1]%positive [[1; 0]]))
  ∧ length [7] ≠ MPMOQLearning.reward_dim (self (toy_machine false [1]%positive [[1; 0]]))
  ∧ @eval nat toy (toy_machine false [1]%positive [[1; 0]]) [0] [7] = Raise ValueError.
Proof.
  assert (H1 : MPMOQLearning.use_gpi_policy (self (toy_machine false [1]%positive [[1; 0]])) = false)
    by reflexivity.
  assert (H3 : Forall (λ v, length v = MPMOQLearning.reward_dim (self (toy_machine false [1]%positive [[1; 0]])))
      (ccs (toy_machine false [1]%positive [[1; 0]]))).
  { repeat constructor. }
  assert (H4 : length [7] ≠ MPMOQLearning.reward_dim (self (toy_machine false [1]%positive [[1; 0]])))
    by discriminate.
  repeat (split; [assumption|]).
  exact (proj1 (@eval_weight_dimension nat toy (toy_machine false [1]%positive [[1; 0]]) [0] [7])
           H1 H3 H4).
Defined.

(** C9, as the specification states it, fails in GPI mode: with a tabular sub-policy
    that has not seen the observation, a weight of one component is
    accepted by a coordinator for two objectives and an action comes back. *)
Lemma eval_gpi_accepts_mismatched_weight :
  length [7] ≠ MPMOQLearning.reward_dim (self (toy_machine true [1]%positive [[1; 0]]))
  ∧ MPMOQLearning.use_gpi_policy (self (toy_machine true [1]%positive [[1; 0]])) = true
  ∧ @eval nat toy (toy_machine true [1]%positive [[1; 0]]) [0] [7] = Ok 0%nat
  ∧ ¬ (∀ (C : Collaborators nat) (m : Machine nat) (obs w : list Z),
         length w ≠ MPMOQLearning.reward_dim (self m) → ∃ e, @eval nat C m obs w = Raise e).
Proof.
  split; [discriminate|]. split; [reflexivity|]. split; [vm_compute; reflexivity|].
  intros Hall.
  destruct (Hall toy (toy_machine true [1]%positive [[1; 0]]) [0] [7]) as [e He];
    [discriminate|].
  vm_compute in He. discriminate.
Qed.

(** * Further properties of the coordinator *)

(** ** More on [delete_policies] *)

Lemma sorted_reverse_StronglySorted l : StronglySorted Z.ge (sorted_reverse l).
Proof. apply (StronglySorted_merge_sort Z.ge (Transitive0:=Zge_trans) (Total0:=Zge_total)). Qed.

Lemma sorted_reverse_of_sorted s l :
  StronglySorted Z.ge s → s ≡ₚ l → sorted_reverse l = s.
Proof.
  intros Hs Hp. apply (@StronglySorted_unique _ Z.ge Zge_antisymm).
  - apply sorted_reverse_StronglySorted.
  - done.
  - by rewrite sorted_reverse_Permutation.
Qed.



Lemma delete_delete_shift {A} (l : list A) : ∀ i j : nat,
  (i ≤ j)%nat → delete j (delete i l) = delete i (delete (S j) l).
Proof.
  induction l as [|x l IH]; intros [|i] [|j] Hij; simpl; try done; try lia.
  f_equal. apply IH. lia.
Qed.

Section MoreDelete.
Context {World : Type}.
Implicit Types (m : Machine World).



(** X3.  A repeated index is popped twice: [delete_policies [i; i]] removes
    the entries at positions [i] and [i + 1]. *)
Theorem delete_policies_duplicate_index m i :
  0 ≤ i → i + 1 < Z.of_nat (length (policies m)) →
  delete_policies [i; i] m
  = (set_self (MPMOQLearning.set_policies (remove_positions [i; i + 1] (policies m))) m, Ok tt).
Proof.
  intros H0 Hi.
  assert (Hnd : NoDup [i + 1; i]).
  { apply NoDup_cons. split; [rewrite list_elem_of_singleton; lia | apply NoDup_singleton]. }
  assert (Hrange : Forall (λ j, 0 ≤ j < Z.of_nat (length (policies m))) [i + 1; i]).
  { repeat constructor; lia. }
  pose proof (pop_sorted_reverse_correct [i + 1; i] (policies m) Hnd Hrange) as Hpop.
  unfold pop_sorted_reverse in Hpop.
  rewrite (sorted_reverse_of_sorted [i + 1; i]) in Hpop; [| |done].
  2:{ repeat constructor; lia. }
  unfold delete_policies, pop_sorted_reverse.
  rewrite (sorted_reverse_of_sorted [i; i]); [| |done].
  2:{ repeat constructor; lia. }
  simpl in *. rewrite (pop_in_range i) by lia.
  rewrite (pop_in_range (i + 1)) in Hpop by lia.
  rewrite pop_in_range in Hpop
    by (rewrite length_delete by (apply lookup_lt_is_Some; lia); lia).
  rewrite pop_in_range
    by (rewrite length_delete by (apply lookup_lt_is_Some; lia); lia).
  injection Hpop as Hpop.
  replace (Z.to_nat (i + 1)) with (S (Z.to_nat i)) in Hpop by lia.
  rewrite delete_delete_shift by lia. rewrite Hpop.
  do 2 f_equal. f_equal. apply remove_positions_from_ext. intros x.
  rewrite !elem_of_cons, !elem_of_nil. tauto.
Qed.

(** X4.  A negative index within [-len, -1] is not rejected: it counts from
    the end, so [delete_policies [-k]] removes position [len - k]. *)
Theorem delete_policies_negative_index m k :
  1 ≤ k ≤ Z.of_nat (length (policies m)) →
  delete_policies [- k] m
  = (set_self (MPMOQLearning.set_policies
                 (remove_positions [Z.of_nat (length (policies m)) - k] (policies m))) m,
     Ok tt).
Proof.
  intros Hk.
  assert (Hnd : NoDup [Z.of_nat (length (policies m)) - k]) by apply NoDup_singleton.
  assert (Hrange : Forall (λ j, 0 ≤ j < Z.of_nat (length (policies m)))
                     [Z.of_nat (length (policies m)) - k]).
  { repeat constructor; lia. }
  pose proof (pop_sorted_reverse_correct _ (policies m) Hnd Hrange) as Hpop.
  unfold delete_policies, pop_sorted_reverse in *.
  rewrite (sorted_reverse_of_sorted [Z.of_nat (length (policies m)) - k]) in Hpop;
    [| repeat constructor | done].
  rewrite (sorted_reverse_of_sorted [- k]); [| repeat constructor | done].
  simpl in *. rewrite pop_in_range in Hpop by lia. injection Hpop as Hpop.
  unfold pop. destruct (Z.ltb_spec (- k) 0); [|lia].
  rewrite decide_True by lia.
  replace (- k + Z.of_nat (length (policies m))) with (Z.of_nat (length (policies m)) - k) by lia.
  by rewrite Hpop.
Qed.

Lemma delete_policies_single m i :
  0 ≤ i < Z.of_nat (length (policies m)) →
  delete_policies [i] m
  = (set_self (MPMOQLearning.set_policies (delete (Z.to_nat i) (policies m))) m, Ok tt).
Proof.
  intros Hi. unfold delete_policies, pop_sorted_reverse.
  rewrite (sorted_reverse_of_sorted [i]); [| repeat constructor | done].
  simpl. by rewrite pop_in_range.
Qed.

(** X5.  Two calls in a row compose with the shift of the positions: removing
    [i] and then [j >= i] is removing [i] and [j + 1] in one call. *)
Theorem delete_policies_twice m i j :
  0 ≤ i ≤ j → j + 1 < Z.of_nat (length (policies m)) →
  bind (delete_policies [i]) (λ _, delete_policies [j]) m
  = delete_policies [i; j + 1] m.
Proof.
  intros Hij Hj. unfold bind. rewrite delete_policies_single by lia.
  assert (Hlen : length (policies (set_self (MPMOQLearning.set_policies
                                     (delete (Z.to_nat i) (policies m))) m))
                 = (length (policies m) - 1)%nat).
  { unfold policies. simpl. rewrite length_delete; [done|].
    apply lookup_lt_is_Some. unfold policies in Hj. lia. }
  rewrite delete_policies_single by (rewrite Hlen; lia).
  unfold delete_policies at 1, pop_sorted_reverse.
  rewrite (sorted_reverse_of_sorted [j + 1; i]);
    [| repeat constructor; lia | apply Permutation_swap].
  simpl. rewrite (pop_in_range (j + 1)) by lia.
  rewrite pop_in_range
    by (rewrite length_delete by (apply lookup_lt_is_Some; lia); lia).
  replace (Z.to_nat (j + 1)) with (S (Z.to_nat j)) by lia.
  rewrite <-delete_delete_shift by lia. by destruct m as [[] ? ? ? ?].
Qed.
End MoreDelete.

(** ** More on [eval] and [_gpi_action] *)





Lemma comprehension_first_exception {A B} (f : A → result B) before x after e :
  Forall (λ y, ∃ b, f y = Ok b) before → f x = Raise e →
  comprehension f (before ++ x :: after) = Raise e.
Proof.
  intros Hbefore He. induction Hbefore as [|y before [b Hb] _ IH]; simpl.
  - by rewrite He.
  - rewrite Hb. simpl. by rewrite IH.
Qed.

Section MoreEval.
Context {World : Type} `{Collaborators World}.
Implicit Types (m : Machine World) (obs state w : list Z).

Lemma eval_best_match_policy m obs w :
  MPMOQLearning.use_gpi_policy (self m) = false →
  eval m obs w = rbind (best_match_policy m w) (λ policy, MOQLearning_eval policy m obs w).
Proof.
  intros Hgpi. unfold eval, best_match_policy. rewrite Hgpi.
  destruct (comprehension _ (ccs m)) as [dots|]; simpl; [|done].
  by destruct (np.argmax dots).
Qed.

(** X6.  In best-match mode, over a non-empty frontier of vectors of the
    weight's dimension and a pool at least as long, [eval] is the [eval] of
    the policy at the first position whose frontier vector maximizes
    [np.dot(w, v)]: ties go to the lowest index. *)
Theorem eval_best_match m obs w :
  MPMOQLearning.use_gpi_policy (self m) = false →
  ccs m ≠ [] → Forall (λ v, length v = length w) (ccs m) →
  (length (ccs m) ≤ length (policies m))%nat →
  ∃ i policy v top,
    policies m !! i = Some policy ∧ ccs m !! i = Some v ∧ np.dot w v = Ok top
    ∧ (∀ j v' x, ccs m !! j = Some v' → np.dot w v' = Ok x → x ≤ top)
    ∧ (∀ j v' x, (j < i)%nat → ccs m !! j = Some v' → np.dot w v' = Ok x → x < top)
    ∧ eval m obs w = MOQLearning_eval policy m obs w.
Proof.
  intros Hgpi Hne Hdim Hlen.
  destruct (best_match_Ok w (ccs m) Hne Hdim) as (i & v & top & Hbest & Hv & Hdot & Hub & Hfirst).
  destruct (lookup_lt_is_Some_2 (policies m) i) as [policy Hp].
  { apply lookup_lt_Some in Hv. lia. }
  exists i, policy, v, top. repeat split; try done.
  rewrite eval_best_match_policy by done. unfold best_match_policy.
  apply rbind_Ok in Hbest as (dots & -> & Hi). simpl. rewrite Hi. simpl.
  unfold getitem. by rewrite Hp.
Qed.


(** X9.  When the frontier is longer than the pool and the one best frontier
    vector for [w] sits at a position the pool does not have, best-match
    [eval] raises IndexError. *)
Theorem eval_best_match_beyond_pool m obs w i v top :
  MPMOQLearning.use_gpi_policy (self m) = false →
  Forall (λ v, length v = length w) (ccs m) →
  ccs m !! i = Some v → np.dot w v = Ok top →
  (∀ j v' x, j ≠ i → ccs m !! j = Some v' → np.dot w v' = Ok x → x < top) →
  (length (policies m) ≤ i)%nat →
  eval m obs w = Raise IndexError.
Proof.
  intros Hgpi Hdim Hv Hdot Hstrict Hlen.
  destruct (best_match_Ok w (ccs m)) as (i' & v' & top' & Hbest & Hv' & Hdot' & Hub & _); [|done|].
  { intros Hc. by rewrite Hc in Hv. }
  assert (i' = i) as ->.
  { destruct (decide (i' = i)) as [|Hne]; [done|].
    specialize (Hstrict _ _ _ Hne Hv' Hdot'). specialize (Hub _ _ _ Hv Hdot). lia. }
  rewrite eval_best_match_policy by done. unfold best_match_policy.
  apply rbind_Ok in Hbest as (dots & -> & Hi). simpl. rewrite Hi. simpl.
  unfold getitem. by rewrite lookup_ge_None_2.
Qed.

(** X10.  With one policy in the pool, the GPI action is [np.argmax] of that
    policy's scalarized values: its greedy action, or the ValueError of an
    empty value vector. *)
Theorem gpi_action_single_policy m state w policy row :
  policies m = [policy] →
  MOQLearning_scalarized_q_values policy state w m = Ok row →
  _gpi_action state w m = np.argmax row.
Proof.
  intros Hp Hrow. unfold _gpi_action. rewrite Hp. cbn [comprehension rbind].
  rewrite Hrow. cbn [rbind]. unfold np.stack. cbn [forallb rbind np.data np.shape concat].
  rewrite app_nil_r.
  destruct row as [|y t] eqn:Hr; [done|]. rewrite <-Hr in *.
  destruct (argmax_spec row) as (i & top & Heq & Hi & _); [by rewrite Hr|].
  rewrite Heq. cbn [rbind]. unfold np.unravel_index. cbn [fst snd].
  apply lookup_lt_Some in Hi.
  rewrite decide_True by (cbn [length]; lia). cbn [rbind]. f_equal.
  apply Nat.mod_small. lia.
Qed.

(** X11.  When every policy returns a value vector but the vectors do not
    form a non-empty rectangular array (no policy, vectors of different
    lengths, or no action), [_gpi_action] raises ValueError. *)
Theorem gpi_action_malformed_stack m state w rows :
  Forall2 (λ policy row, MOQLearning_scalarized_q_values policy state w m = Ok row)
    (policies m) rows →
  ¬ (rows ≠ [] ∧ ∃ n, (0 < n)%nat ∧ Forall (λ r, length r = n) rows) →
  _gpi_action state w m = Raise ValueError.
Proof.
  intros Hrows Hbad. rewrite (gpi_action_of_rows m state w rows Hrows).
  destruct rows as [|r rs]; [done|]. unfold np.stack.
  destruct (forallb _ rs) eqn:Hall; [|done]. cbn [rbind np.data np.shape].
  assert (Huni : Forall (λ r', length r' = length r) (r :: rs)).
  { constructor; [done|]. apply Forall_forall. intros r' Hr'.
    rewrite forallb_forall in Hall. apply Nat.eqb_eq, Hall.
    by apply list_elem_of_In. }
  destruct (length r) as [|n] eqn:Hn.
  - assert (concat (r :: rs) = []) as ->; [|done].
    apply length_zero_iff_nil. rewrite (concat_length_uniform _ 0%nat) by done. lia.
  - exfalso. apply Hbad. split; [done|]. exists (S n). split; [lia | done].
Qed.

(** X12.  The exception of the first policy whose [scalarized_q_values]
    raises is the exception of [_gpi_action]; no action is made up. *)
Theorem gpi_action_propagates_exception m state w before policy after e :
  policies m = before ++ policy :: after →
  Forall (λ p, ∃ row, MOQLearning_scalarized_q_values p state w m = Ok row) before →
  MOQLearning_scalarized_q_values policy state w m = Raise e →
  _gpi_action state w m = Raise e.
Proof.
  intros Hp Hbefore He. unfold _gpi_action. rewrite Hp.
  by rewrite (comprehension_first_exception _ before policy after e Hbefore He).
Qed.

(** X13.  On a coordinator as [__init__] returns it, [eval] raises ValueError
    in GPI mode and in best-match mode, whatever the store holds. *)
Theorem eval_after_init (reward_dim : nat) (algo : string)
    (use_gpi transfer_q_table log : bool) (c : MPMOQLearning.t)
    (ag : gmap loc MOQLearning.t) (tb : gmap loc QTable) (wd : World)
    (pr : list (loc * list Z)) obs w :
  __init__ reward_dim algo use_gpi transfer_q_table log = Ok c →
  eval (mkMachine c ag tb wd pr) obs w = Raise ValueError.
Proof.
  unfold __init__. case_decide; [|done]. intros [= <-].
  unfold eval, _gpi_action. simpl. by destruct use_gpi.
Qed.
End MoreEval.

(** ** More on [train] *)

Section MoreTrain.
Context {World : Type} `{Collaborators World}.
Implicit Types (m : Machine World) (w : list Z).

Lemma range_nil n : n ≤ 0 → range n = [].
Proof. intros Hn. unfold range. by replace (Z.to_nat n) with 0%nat by lia. Qed.

Lemma range_cons n : 0 < n → ∃ rest, range n = 0 :: rest.
Proof.
  intros Hn. unfold range. destruct (Z.to_nat n) as [|k] eqn:Hk; [lia|].
  simpl. eauto.
Qed.

(** X14.  With an iteration count of zero or less, [train] creates no
    policy and leaves the coordinator and the store as they are; only the
    logging sink is closed when logging is on. *)
Theorem train_no_iterations m n T nfront rep :
  n ≤ 0 →
  train n T nfront rep m
  = (if MPMOQLearning.log (self m) then set_world (close_wandb (world m)) m else m, Ok tt).
Proof.
  intros Hn. unfold train, bind, reading. rewrite range_nil by done. simpl.
  unfold ret. by destruct (MPMOQLearning.log (self m)).
Qed.

(** X17.  With a strategy name that is none of the three (the attribute can
    be overwritten after construction) and at least one iteration, [train]
    raises UnboundLocalError in its first iteration and has changed
    nothing. *)
Theorem train_unknown_strategy m n T nfront rep :
  MPMOQLearning.weight_selection_algo (self m) ∉ ["random"; "ols"; "gpi-ls"]%string →
  0 < n →
  train n T nfront rep m = (m, Raise UnboundLocalError).
Proof.
  intros Halgo Hn. destruct (range_cons n Hn) as [rest Hrange].
  unfold train, bind, reading. rewrite Hrange. simpl.
  unfold train_iteration, bind, select_weight.
  rewrite decide_False.
  2:{ intros [Heq|Heq]; apply Halgo; rewrite Heq; set_solver. }
  rewrite decide_False; [done|].
  intros Heq. apply Halgo. rewrite Heq. set_solver.
Qed.

Lemma grown_from_iteration m0 T rep ews iter prev k m m' r :
  grown_from m0 k m → train_iteration T rep ews iter prev m = (m', Ok r) →
  grown_from m0 (S k) m'.
Proof.
  intros (Hlen & Horigin & Hstore)
    (w & new_agent & value & removed & a & _ & _ & Hnone & Hpool & _ & _ & _
     & Ha & _ & _ & Hothers)%train_iteration_Ok_inv.
  assert (Hsub : policies m' `sublist_of` policies m ++ [new_agent]).
  { eapply pop_each_sublist. exact Hpool. }
  split; [|split].
  - apply sublist_length in Hsub. rewrite length_app in Hsub. simpl in Hsub. lia.
  - intros l Hl. eapply elem_of_sublist in Hl; [|exact Hsub].
    apply elem_of_app in Hl as [Hl|Hl%list_elem_of_singleton]; [by apply Horigin|].
    subst l. right. destruct (agents m0 !! new_agent) eqn:Hm0; [|done].
    destruct (Hstore new_agent) as [? Hsome]; [by eexists|]. congruence.
  - intros l Hl%Hstore. destruct (decide (l = new_agent)) as [->|Hne].
    + rewrite Ha. by eexists.
    + by rewrite Hothers.
Qed.

(** X15.  A run of [train] that returns has added at most one policy per
    iteration, and every pool entry afterwards is an entry of the old pool
    or an object created during the run. *)
Theorem train_pool_growth m n T nfront rep m' :
  train n T nfront rep m = (m', Ok tt) →
  (length (policies m') ≤ length (policies m) + Z.to_nat n)%nat
  ∧ ∀ l, l ∈ policies m' → l ∈ policies m ∨ agents m !! l = None.
Proof.
  intros (m1 & r & wd & Hloop & ->)%train_Ok_inv.
  assert (H0 : grown_from m 0 m) by (split; [lia|]; split; [by left | done]).
  pose proof (train_loop_invariant (grown_from m) T rep _
                (λ k iter prev m1 m2 r, grown_from_iteration m T rep _ iter prev k m1 m2 r)
                (range n) 0%nat None m m1 r H0 Hloop) as (Hlen & Horigin & _).
  unfold range in Hlen. rewrite length_fmap, length_seq in Hlen.
  split; [exact Hlen | exact Horigin].
Qed.

Lemma distinct_pool_iteration T rep ews iter prev m m' r :
  distinct_pool m → train_iteration T rep ews iter prev m = (m', Ok r) → distinct_pool m'.
Proof.
  intros [Hnd Halloc]
    (w & new_agent & value & removed & a & _ & _ & Hnone & Hpool & _ & _ & _
     & Ha & _ & _ & Hothers)%train_iteration_Ok_inv.
  assert (Hsub : policies m' `sublist_of` policies m ++ [new_agent]).
  { eapply pop_each_sublist. exact Hpool. }
  assert (Hfresh : new_agent ∉ policies m).
  { intros [? Hsome]%Halloc. congruence. }
  split.
  - eapply sublist_NoDup; [|exact Hsub]. apply NoDup_app. split; [done|]. split.
    + intros l Hl ->%list_elem_of_singleton. done.
    + apply NoDup_singleton.
  - intros l Hl. eapply elem_of_sublist in Hl; [|exact Hsub].
    apply elem_of_app in Hl as [Hl|Hl%list_elem_of_singleton].
    + rewrite Hothers; [by apply Halloc|]. intros ->. done.
    + subst l. rewrite Ha. by eexists.
Qed.

(** X16.  From a pool without repetition whose entries are in the store,
    [train] returns with a pool without repetition whose entries are in the
    store. *)
Theorem train_pool_distinct m n T nfront rep m' :
  NoDup (policies m) → (∀ l, l ∈ policies m → is_Some (agents m !! l)) →
  train n T nfront rep m = (m', Ok tt) →
  NoDup (policies m') ∧ ∀ l, l ∈ policies m' → is_Some (agents m' !! l).
Proof.
  intros Hnd Halloc (m1 & r & wd & Hloop & ->)%train_Ok_inv.
  exact (train_loop_invariant (λ _, distinct_pool) T rep _
           (λ _ iter prev m1 m2 r, distinct_pool_iteration T rep _ iter prev m1 m2 r)
           (range n) 0%nat None m m1 r (conj Hnd Halloc) Hloop).
Qed.
End MoreTrain.

Section MoreLoop.
Context {World : Type} `{Collaborators World}.
Implicit Types (m : Machine World) (w : list Z).

(** X7.  The table handed to a new policy for the weight [w] is a copy of
    the table of the policy that best-match mode selects for [w]. *)
Theorem transfer_source_is_best_match m w new_agent new source a t :
  MPMOQLearning.transfer_q_table (self m) = true →
  best_match_policy m w = Ok source →
  agents m !! source = Some a →
  tables m !! MOQLearning.q_table a = Some t →
  agents m !! new_agent = Some new →
  ∃ m' copy,
    transfer w new_agent m = (m', Ok tt)
    ∧ agents m' !! new_agent = Some (MOQLearning.set_q_table copy new)
    ∧ tables m' !! copy = Some t
    ∧ tables m !! copy = None.
Proof.
  intros Htr Hbest Ha Ht Hnew. unfold best_match_policy in Hbest.
  apply rbind_Ok in Hbest as (dots & Hdots & Hbest).
  apply rbind_Ok in Hbest as (i & Hi & Hsource).
  assert (Hne : policies m ≠ []).
  { intros Hp. unfold getitem in Hsource. by rewrite Hp, lookup_nil in Hsource. }
  set (copy := fresh (dom (tables m))).
  exists (set_agent new_agent (MOQLearning.set_q_table copy new) (set_table copy t m)), copy.
  split; [|split; [|split]].
  - unfold transfer. rewrite Htr.
    rewrite bool_decide_true by (destruct (policies m); simpl; [done|lia]).
    simpl.
    erewrite bind_Ok by (unfold reading; by rewrite Hdots; simpl; rewrite Hi).
    erewrite bind_Ok by (unfold reading; by rewrite Hsource).
    erewrite bind_Ok by (unfold reading; by rewrite (proj2 (agent_at_Ok _ _ _) Ha)).
    erewrite bind_Ok.
    2:{ unfold deepcopy.
        erewrite bind_Ok by (unfold reading; by rewrite (proj2 (table_at_Ok _ _ _) Ht)).
        reflexivity. }
    erewrite bind_Ok by (unfold reading, agent_at; simpl; by rewrite Hnew).
    done.
  - simpl. apply lookup_insert_eq.
  - simpl. apply lookup_insert_eq.
  - apply not_elem_of_dom, is_fresh.
Qed.

(** X18.  After an iteration the coordinator's step counter is the step
    counter of the policy created and trained in that iteration (lines 208
    and 216). *)
Theorem train_iteration_counter_in_step T rep ews iter prev m m' r :
  train_iteration T rep ews iter prev m = (m', Ok r) →
  ∃ new_agent a,
    agents m !! new_agent = None
    ∧ agents m' !! new_agent = Some a
    ∧ MPMOQLearning.global_step (self m') = MOQLearning.global_step a.
Proof.
  unfold train_iteration.
  intros (m1 & w & [[wd1 ->] Hw]%select_weight_Ok_inv & Hrun)%bind_Ok_inv.
  apply bind_Ok_inv in Hrun as (m2 & new_agent & Hnew & Hrun).
  unfold MOQLearning_new in Hnew. injection Hnew as <- <-.
  simpl in Hrun.
  assert (Hnone : agents m !! fresh (dom (agents m)) = None).
  { apply not_elem_of_dom, is_fresh. }
  remember (fresh (dom (agents m))) as new_agent eqn:Hfresh. clear Hfresh.
  apply bind_Ok_inv in Hrun as (m3 & [] & Htransfer & Hrun).
  apply bind_Ok_inv in Hrun as (m4 & [] & [-> _]%modify_inv & Hrun).
  apply bind_Ok_inv in Hrun as (m5 & g & [-> [= <-]]%reading_Ok_inv & Hrun).
  apply bind_Ok_inv in Hrun as (m5 & a & [-> Ha%agent_at_Ok]%reading_Ok_inv & Hrun).
  apply bind_Ok_inv in Hrun as (m5 & [] & [-> _]%modify_inv & Hrun).
  apply bind_Ok_inv in Hrun as (m6 & [] & Htrain & Hrun).
  apply MOQLearning_train_Ok_inv in Htrain as (a6 & t6 & Ha6 & Ht6 & ->).
  apply bind_Ok_inv in Hrun as (m7 & a' & [-> Ha'%agent_at_Ok]%reading_Ok_inv & Hrun).
  apply bind_Ok_inv in Hrun as (m7 & [] & [-> _]%modify_inv & Hrun).
  apply bind_Ok_inv in Hrun as (m8 & value & Heval & Hrun).
  destruct (policy_evaluation_mo _ _ _ _) as [rv wd8] in Heval. injection Heval as <- ->.
  apply bind_Ok_inv in Hrun as (m9 & [] & [-> _]%modify_inv & Hrun).
  apply bind_Ok_inv in Hrun as (m10 & removed & (wd10 & front & Hfront & ->)%add_solution_Ok_inv & Hrun).
  apply bind_Ok_inv in Hrun as (m11 & [] & (pool & Hpool & ->)%delete_policies_Ok_inv & Hrun).
  apply bind_Ok_inv in Hrun as (m12 & [] & [wd12 ->]%log_iteration_Ok_inv & [= <- <-]).
  record_simpl.
  rewrite lookup_insert_eq in Ha'. injection Ha' as <-.
  exists new_agent. eexists. split; [done|]. split; [apply lookup_insert_eq | done].
Qed.


End MoreLoop.

(** ** [get_config] *)


(** ** The further properties on concrete machines *)



Lemma delete_policies_duplicate_index_witness :
  0 ≤ 0
  ∧ 0 + 1 < Z.of_nat (length (policies (toy_machine false [1; 2; 3]%positive [])))
  ∧ policies (delete_policies [0; 0] (toy_machine false [1; 2; 3]%positive [])).1 = [3%positive].
Proof.
  assert (H1 : 0 ≤ 0) by by_computation.
  assert (H2 : 0 + 1 < Z.of_nat (length (policies (toy_machine false [1; 2; 3]%positive []))))
    by by_computation.
  split; [exact H1|]. split; [exact H2|].
  rewrite (delete_policies_duplicate_index (toy_machine false [1; 2; 3]%positive []) 0 H1 H2).
  reflexivity.
Defined.

Lemma delete_policies_negative_index_witness :
  1 ≤ 1 ≤ Z.of_nat (length (policies (toy_machine false [1; 2; 3]%positive [])))
  ∧ policies (delete_policies [Z.opp 1] (toy_machine false [1; 2; 3]%positive [])).1
    = [1; 2]%positive.
Proof.
  assert (H1 : 1 ≤ 1 ≤ Z.of_nat (length (policies (toy_machine false [1; 2; 3]%positive []))))
    by by_computation.
  split; [exact H1|].
  rewrite (delete_policies_negative_index (toy_machine false [1; 2; 3]%positive []) 1 H1).
  reflexivity.
Defined.

Lemma delete_policies_twice_witness :
  0 ≤ 0 ≤ 1
  ∧ 1 + 1 < Z.of_nat (length (policies (toy_machine false [1; 2; 3; 4]%positive [])))
  ∧ bind (delete_policies [0]) (λ _, delete_policies [1]) (toy_machine false [1; 2; 3; 4]%positive [])
    = delete_policies [0; 1 + 1] (toy_machine false [1; 2; 3; 4]%positive [])
  ∧ policies (delete_policies [0; 2] (toy_machine false [1; 2; 3; 4]%positive [])).1
    = [2; 4]%positive.
Proof.
  assert (H1 : 0 ≤ 0 ≤ 1) by by_computation.
  assert (H2 : 1 + 1 < Z.of_nat (length (policies (toy_machine false [1; 2; 3; 4]%positive []))))
    by by_computation.
  split; [exact H1|]. split; [exact H2|]. split.
  - exact (delete_policies_twice (toy_machine false [1; 2; 3; 4]%positive []) 0 1 H1 H2).
  - reflexivity.
Defined.

Lemma eval_best_match_witness :
  MPMOQLearning.use_gpi_policy (self (two_policy_machine false)) = false
  ∧ ccs (two_policy_machine false) ≠ []
  ∧ Forall (λ v, length v = length [1; 3]) (ccs (two_policy_machine false))
  ∧ (length (ccs (two_policy_machine false)) ≤ length (policies (two_policy_machine false)))%nat
  ∧ @eval nat toy (two_policy_machine false) [0] [1; 3]
    = @MOQLearning_eval nat toy 2%positive (two_policy_machine false) [0] [1; 3].
Proof.
  assert (H1 : MPMOQLearning.use_gpi_policy (self (two_policy_machine false)) = false)
    by reflexivity.
  assert (H2 : ccs (two_policy_machine false) ≠ []) by discriminate.
  assert (H3 : Forall (λ v, length v = length [1; 3]) (ccs (two_policy_machine false))).
  { repeat constructor. }
  assert (H4 : (length (ccs (two_policy_machine false))
                ≤ length (policies (two_policy_machine false)))%nat) by by_computation.
  split; [exact H1|]. split; [exact H2|]. split; [exact H3|]. split; [exact H4|].
  destruct (@eval_best_match nat toy (two_policy_machine false) [0] [1; 3] H1 H2 H3 H4)
    as (i & policy & v & top & Hp & Hv & Hdot & Hub & _ & Heval).
  rewrite Heval. f_equal.
  destruct i as [|[|i]]; [|by injection Hp|by destruct i].
  exfalso. injection Hv as <-. injection Hdot as <-.
  specialize (Hub 1%nat [0; 10] 30 eq_refl eq_refl). lia.
Defined.

Lemma transfer_source_is_best_match_witness :
  MPMOQLearning.transfer_q_table (self (two_policy_machine false)) = true
  ∧ best_match_policy (two_policy_machine false) [1; 3] = Ok 2%positive
  ∧ agents (two_policy_machine false) !! 2%positive = Some (MOQLearning.mk 1 [0; 1] 20%positive 0)
  ∧ tables (two_policy_machine false) !! 20%positive = Some {[ [0] := [[0; 10]; [3; 9]] ]}
  ∧ agents (two_policy_machine false) !! 3%positive = Some (MOQLearning.mk 2 [1; 3] 30%positive 0)
  ∧ ∃ m' copy,
      transfer [1; 3] 3%positive (two_policy_machine false) = (m', Ok tt)
      ∧ agents m' !! 3%positive = Some (MOQLearning.mk 2 [1; 3] copy 0)
      ∧ tables m' !! copy = Some {[ [0] := [[0; 10]; [3; 9]] ]}.
Proof.
  assert (H1 : MPMOQLearning.transfer_q_table (self (two_policy_machine false)) = true)
    by reflexivity.
  assert (H2 : best_match_policy (two_policy_machine false) [1; 3] = Ok 2%positive)
    by (vm_compute; reflexivity).
  assert (H3 : agents (two_policy_machine false) !! 2%positive
               = Some (MOQLearning.mk 1 [0; 1] 20%positive 0)) by reflexivity.
  assert (H4 : tables (two_policy_machine false) !! 20%positive
               = Some {[ [0] := [[0; 10]; [3; 9]] ]}) by reflexivity.
  assert (H5 : agents (two_policy_machine false) !! 3%positive
               = Some (MOQLearning.mk 2 [1; 3] 30%positive 0)) by reflexivity.
  repeat (split; [assumption|]).
  destruct (transfer_source_is_best_match (two_policy_machine false) [1; 3] 3%positive
              _ _ _ _ H1 H2 H3 H4 H5) as (m' & copy & Hrun & Hnew & Hcopy & _).
  exists m', copy. auto.
Defined.


Lemma eval_best_match_beyond_pool_witness :
  MPMOQLearning.use_gpi_policy (self short_pool_machine) = false
  ∧ Forall (λ v, length v = length [1; 3]) (ccs short_pool_machine)
  ∧ ccs short_pool_machine !! 1%nat = Some [0; 1]
  ∧ np.dot [1; 3] [0; 1] = Ok 3
  ∧ (length (policies short_pool_machine) ≤ 1)%nat
  ∧ @eval nat toy short_pool_machine [0] [1; 3] = Raise IndexError.
Proof.
  assert (H1 : MPMOQLearning.use_gpi_policy
                 (self short_pool_machine) = false) by reflexivity.
  assert (H2 : Forall (λ v, length v = length [1; 3])
                 (ccs short_pool_machine)).
  { repeat constructor. }
  assert (H3 : ccs short_pool_machine !! 1%nat = Some [0; 1])
    by reflexivity.
  assert (H4 : np.dot [1; 3] [0; 1] = Ok 3) by reflexivity.
  assert (H5 : ∀ j v' x, j ≠ 1%nat →
                 ccs short_pool_machine !! j = Some v' →
                 np.dot [1; 3] v' = Ok x → x < 3).
  { intros [|[|j]] v' x Hj Hv Hx; [|done|by destruct j].
    injection Hv as <-. injection Hx as <-. lia. }
  assert (H6 : (length (policies short_pool_machine) ≤ 1)%nat)
    by by_computation.
  split; [exact H1|]. split; [exact H2|]. split; [exact H3|]. split; [exact H4|].
  split; [exact H6|].
  exact (@eval_best_match_beyond_pool nat toy short_pool_machine
           [0] [1; 3] 1%nat [0; 1] 3 H1 H2 H3 H4 H5 H6).
Defined.

Lemma gpi_action_single_policy_witness :
  policies (toy_machine true [1]%positive [[1; 0]]) = [1%positive]
  ∧ @MOQLearning_scalarized_q_values nat toy 1%positive [0] [1; 1]
      (toy_machine true [1]%positive [[1; 0]]) = Ok [0; 0]
  ∧ @_gpi_action nat toy [0] [1; 1] (toy_machine true [1]%positive [[1; 0]]) = np.argmax [0; 0].
Proof.
  assert (H1 : policies (toy_machine true [1]%positive [[1; 0]]) = [1%positive]) by reflexivity.
  assert (H2 : @MOQLearning_scalarized_q_values nat toy 1%positive [0] [1; 1]
                 (toy_machine true [1]%positive [[1; 0]]) = Ok [0; 0]) by reflexivity.
  split; [exact H1|]. split; [exact H2|].
  exact (@gpi_action_single_policy nat toy (toy_machine true [1]%positive [[1; 0]]) [0] [1; 1]
           1%positive [0; 0] H1 H2).
Defined.

Lemma gpi_action_malformed_stack_witness :
  Forall2 (λ policy row,
             @MOQLearning_scalarized_q_values nat toy policy [0] [1; 1] ragged_machine = Ok row)
    (policies ragged_machine) [[10; 8]; [10]]
  ∧ ¬ ([[10; 8]; [10]] ≠ [] ∧ ∃ n, (0 < n)%nat ∧ Forall (λ r : list Z, length r = n) [[10; 8]; [10]])
  ∧ @_gpi_action nat toy [0] [1; 1] ragged_machine = Raise ValueError.
Proof.
  assert (H1 : Forall2 (λ policy row,
             @MOQLearning_scalarized_q_values nat toy policy [0] [1; 1] ragged_machine = Ok row)
    (policies ragged_machine) [[10; 8]; [10]]).
  { repeat constructor. }
  assert (H2 : ¬ ([[10; 8]; [10]] ≠ []
                  ∧ ∃ n, (0 < n)%nat ∧ Forall (λ r : list Z, length r = n) [[10; 8]; [10]])).
  { intros (_ & n & _ & Hall). apply Forall_cons in Hall as [Hn Hall].
    apply Forall_cons in Hall as [Hn' _]. simpl in *. lia. }
  split; [exact H1|]. split; [exact H2|].
  exact (@gpi_action_malformed_stack nat toy ragged_machine [0] [1; 1] _ H1 H2).
Defined.

Lemma gpi_action_propagates_exception_witness :
  policies (two_policy_machine true) = [] ++ 1%positive :: [2%positive]
  ∧ Forall (λ p, ∃ row, @MOQLearning_scalarized_q_values nat toy p [0] [1]
                          (two_policy_machine true) = Ok row) []
  ∧ @MOQLearning_scalarized_q_values nat toy 1%positive [0] [1] (two_policy_machine true)
    = Raise ValueError
  ∧ @_gpi_action nat toy [0] [1] (two_policy_machine true) = Raise ValueError.
Proof.
  assert (H1 : policies (two_policy_machine true) = [] ++ 1%positive :: [2%positive])
    by reflexivity.
  assert (H2 : Forall (λ p, ∃ row, @MOQLearning_scalarized_q_values nat toy p [0] [1]
                          (two_policy_machine true) = Ok row) []) by constructor.
  assert (H3 : @MOQLearning_scalarized_q_values nat toy 1%positive [0] [1]
                 (two_policy_machine true) = Raise ValueError) by reflexivity.
  split; [exact H1|]. split; [exact H2|]. split; [exact H3|].
  exact (@gpi_action_propagates_exception nat toy (two_policy_machine true) [0] [1] []
           1%positive [2%positive] ValueError H1 H2 H3).
Defined.

Lemma eval_after_init_witness :
  __init__ 2 "ols" false true false = Ok (MPMOQLearning.mk false true [] "ols" LinearSupport_new false 2 0)
  ∧ @eval nat toy (mkMachine (MPMOQLearning.mk false true [] "ols" LinearSupport_new false 2 0)
                     ∅ ∅ 0%nat []) [0] [1; 1] = Raise ValueError.
Proof.
  assert (H1 : __init__ 2 "ols" false true false
               = Ok (MPMOQLearning.mk false true [] "ols" LinearSupport_new false 2 0))
    by reflexivity.
  split; [exact H1|].
  exact (@eval_after_init nat toy 2%nat "ols" false true false _ ∅ ∅ 0%nat [] [0] [1; 1] H1).
Defined.

Lemma train_no_iterations_witness :
  -2 ≤ 0
  ∧ @train nat toy (-2) 5 2 1 (fresh_machine true false true)
    = (fresh_machine true false true, Ok tt).
Proof.
  assert (H1 : -2 ≤ 0) by by_computation.
  split; [exact H1|].
  rewrite (@train_no_iterations nat toy (fresh_machine true false true) (-2) 5 2 1 H1).
  reflexivity.
Defined.

Lemma train_unknown_strategy_witness :
  (MPMOQLearning.weight_selection_algo (self renamed_strategy_machine)
     ∉ ["random"; "ols"; "gpi-ls"]%string)
  ∧ 0 < 3
  ∧ @train nat toy 3 5 2 1 renamed_strategy_machine
    = (renamed_strategy_machine, Raise UnboundLocalError).
Proof.
  assert (H1 : MPMOQLearning.weight_selection_algo (self renamed_strategy_machine)
                 ∉ ["random"; "ols"; "gpi-ls"]%string) by by_computation.
  assert (H2 : 0 < 3) by by_computation.
  split; [exact H1|]. split; [exact H2|].
  exact (@train_unknown_strategy nat toy renamed_strategy_machine 3 5 2 1 H1 H2).
Defined.

Lemma train_pool_growth_witness :
  ∃ m', @train nat toy 3 5 2 1 (fresh_machine true false true) = (m', Ok tt)
    ∧ (length (policies m') ≤ length (policies (fresh_machine true false true)) + Z.to_nat 3)%nat
    ∧ ∀ l, l ∈ policies m' →
        l ∈ policies (fresh_machine true false true)
        ∨ agents (fresh_machine true false true) !! l = None.
Proof.
  assert (Hrun : @train nat toy 3 5 2 1 (fresh_machine true false true)
                 = ((@train nat toy 3 5 2 1 (fresh_machine true false true)).1, Ok tt)).
  { vm_compute. reflexivity. }
  eexists. split; [exact Hrun|].
  exact (@train_pool_growth nat toy (fresh_machine true false true) 3 5 2 1 _ Hrun).
Defined.

Lemma train_pool_distinct_witness :
  NoDup (policies (fresh_machine true false true))
  ∧ (∀ l, l ∈ policies (fresh_machine true false true) →
       is_Some (agents (fresh_machine true false true) !! l))
  ∧ ∃ m', @train nat toy 3 5 2 1 (fresh_machine true false true) = (m', Ok tt)
      ∧ NoDup (policies m')
      ∧ ∀ l, l ∈ policies m' → is_Some (agents m' !! l).
Proof.
  assert (H1 : NoDup (policies (fresh_machine true false true))) by apply NoDup_nil_2.
  assert (H2 : ∀ l, l ∈ policies (fresh_machine true false true) →
                 is_Some (agents (fresh_machine true false true) !! l)).
  { intros l Hl. by apply elem_of_nil in Hl. }
  assert (Hrun : @train nat toy 3 5 2 1 (fresh_machine true false true)
                 = ((@train nat toy 3 5 2 1 (fresh_machine true false true)).1, Ok tt)).
  { vm_compute. reflexivity. }
  split; [exact H1|]. split; [exact H2|].
  eexists. split; [exact Hrun|].
  exact (@train_pool_distinct nat toy (fresh_machine true false true) 3 5 2 1 _ H1 H2 Hrun).
Defined.

Lemma train_iteration_counter_in_step_witness :
  ∃ m' r, @train_iteration nat toy 5 1 [[1; 0]; [0; 1]] 0 None (fresh_machine true false true)
          = (m', Ok r)
    ∧ MPMOQLearning.global_step (self m') = 5
    ∧ ∃ new_agent a,
        agents (fresh_machine true false true) !! new_agent = None
        ∧ agents m' !! new_agent = Some a
        ∧ MPMOQLearning.global_step (self m') = MOQLearning.global_step a.
Proof.
  assert (Hrun : @train_iteration nat toy 5 1 [[1; 0]; [0; 1]] 0 None (fresh_machine true false true)
                 = ((@train_iteration nat toy 5 1 [[1; 0]; [0; 1]] 0 None
                       (fresh_machine true false true)).1, Ok (Some [0; 1]))).
  { vm_compute. reflexivity. }
  eexists _, _. split; [exact Hrun|]. split; [vm_compute; reflexivity|].
  exact (@train_iteration_counter_in_step nat toy 5 1 [[1; 0]; [0; 1]] 0 None
           (fresh_machine true false true) _ _ Hrun).
Defined.


